(** * Volatility [vadinfo] plugins: VAD inspection, tree display and dumping

    A shallow embedding of [volatility/plugins/windows/vadinfo.py]
    ([VADInfo], [VADTree], [VADDump]) together with the properties that the
    design specification states about it.

    Conventions of the embedding:
    - Python integers are [Z]; Python [str] is [string]; bytes are
      [list byte].
    - Python dictionaries are [gmap]s.
    - [outfd] and the dump directory are explicit state; exceptions are the
      left summand of the result. *)

From Stdlib Require Import ZArith Strings.String Strings.Ascii Strings.Byte.
From Stdlib Require Import Strings.HexString Numbers.DecimalString.
From stdpp Require Import base option list gmap strings.

#[local] Open Scope string_scope.
#[local] Open Scope Z_scope.

(** ** Python built-ins used by the plugin *)

Module Py.

(** [hex(n)] for a Python int: [0x..] with a leading [-] when negative. *)
Definition hex (n : Z) : string := HexString.of_Z n.

(** [len(s)] *)
Definition len (s : string) : Z := Z.of_nat (String.length s).

(** [c * n] for a one-character string [c]: empty when [n <= 0]. *)
Definition times (c : ascii) (n : Z) : string :=
  string_of_list_ascii (repeat c (Z.to_nat n)).

(** Digits of [abs n] in base 16, lower case, no prefix. *)
Definition hex_digits (n : Z) : string :=
  match n with
  | Z0 => "0"
  | Zpos p | Zneg p => HexString.Raw.of_pos p ""
  end.

(** Digits of [abs n] in base 10. *)
Definition dec_digits (n : Z) : string :=
  match n with
  | Z0 => "0"
  | Zpos p | Zneg p => NilZero.string_of_uint (Pos.to_uint p)
  end.

Definition sign (n : Z) : string := if n <? 0 then "-" else "".

(** [format(n, "x")] *)
Definition fmt_x (n : Z) : string := sign n ++ hex_digits n.

(** [format(n, "0<w>x")]: zeros go between the sign and the digits. *)
Definition fmt_0x (w : Z) (n : Z) : string :=
  let body := hex_digits n in
  sign n ++ times "0" (w - len (sign n) - len body) ++ body.

(** [format(n, "<w>")] for an int: decimal, right aligned. *)
Definition fmt_d (w : Z) (n : Z) : string :=
  let body := sign n ++ dec_digits n in
  times " " (w - len body) ++ body.

(** [format(s, "<w>")] for a str: left aligned. *)
Definition fmt_s (w : Z) (s : string) : string :=
  s ++ times " " (w - len s).

(** [enumerate(l)] *)
Fixpoint enumerate_from {A} (i : Z) (l : list A) : list (Z * A) :=
  match l with
  | [] => []
  | x :: l' => (i, x) :: enumerate_from (i + 1) l'
  end.
Definition enumerate {A} (l : list A) : list (Z * A) := enumerate_from 0 l.

(** [dict(pairs)]: a later pair overrides an earlier one with the same
    key. *)
Definition dict {A} (kvs : list (Z * A)) : gmap Z A :=
  foldl (fun m kv => <[kv.1 := kv.2]> m) ∅ kvs.

(** [d.get(k, default)] *)
Definition get {K} `{Countable K} {A} (d : gmap K A) (k : K) (dflt : A) : A :=
  default dflt (d !! k).

(** [posixpath.join(a, b)] *)
Definition startswith_slash (s : string) : bool :=
  match s with
  | String c _ => if ascii_dec c "/" then true else false
  | EmptyString => false
  end.

Fixpoint endswith_slash (s : string) : bool :=
  match s with
  | EmptyString => false
  | String c EmptyString => if ascii_dec c "/" then true else false
  | String _ s' => endswith_slash s'
  end.

Definition path_join (a b : string) : string :=
  if startswith_slash b then b
  else if (if decide (a = "") then true else endswith_slash a) then a ++ b
  else a ++ "/" ++ b.

End Py.

(** ** Exceptions and the output state

    [outfd] is the text written so far (one entry per [write] call, oldest
    first); [files] is the content of the file system below the dump
    directory. An exception leaves the state as it was when it was raised. *)

Inductive exn : Type :=
| AttributeError (attr : string)
| PluginError (msg : string)
| NameError (name : string)
| IOError (path : string).

Record World : Type := mkWorld {
  outfd : list string;
  files : gmap string (list byte)
}.

Definition M (A : Type) : Type := World -> (exn + A) * World.

Definition ret {A} (a : A) : M A := fun w => (inr a, w).

Definition bind {A B} (m : M A) (k : A -> M B) : M B :=
  fun w => match m w with
           | (inl e, w') => (inl e, w')
           | (inr a, w') => k a w'
           end.

Definition raise {A} (e : exn) : M A := fun w => (inl e, w).

Notation "'let*' x ':=' m 'in' k" := (bind m (fun x => k))
  (at level 10, x name, m at level 100, k at level 200, only parsing).
Notation "m ;;; k" := (bind m (fun _ => k))
  (at level 100, k at level 200, right associativity, only parsing).

(** [outfd.write(s)] *)
Definition write (s : string) : M unit :=
  fun w => (inr tt, mkWorld (outfd w ++ [s]) (files w)).

(** [try: m / except AttributeError: pass] *)
Definition except_AttributeError (m : M unit) : M unit :=
  fun w => match m w with
           | (inl (AttributeError _), w') => (inr tt, w')
           | r => r
           end.

(** Reading an attribute that the record layout may lack. *)
Definition getattr {A} (name : string) (field : option A) : M A :=
  match field with
  | Some a => ret a
  | None => raise (AttributeError name)
  end.

(** [for x in xs: body(x)]; an exception in the body leaves the loop. *)
Fixpoint for_each {A} (xs : list A) (body : A -> M unit) : M unit :=
  match xs with
  | [] => ret tt
  | x :: xs' => body x ;;; for_each xs' body
  end.

(** ** The objects the plugin reads

    These are views over the memory image. An attribute that a record layout
    may lack is an [option]: reading [None] raises [AttributeError]. A
    reference that may fail to dereference is an [option] as well: [None]
    stands for the falsy [NoneObject]. *)

(** [vad.u.VadFlags] ([_MMVAD_FLAGS]). [VadType] exists only after XP. *)
Record MMVAD_FLAGS : Type := {
  Protection : Z;
  PrivateMemory : Z;
  VadType : option Z;
  VadFlags_str : string
}.

Record FILE_OBJECT : Type := {
  fo_obj_offset : Z;
  FileName_Buffer : Z;
  FileName : string
}.

(** [_CONTROL_AREA], as reached through the [vad.ControlArea] pointer. *)
Record CONTROL_AREA : Type := {
  ca_obj_offset : Z;
  Segment : Z;
  Flink : Z;
  Blink : Z;
  NumberOfSectionReferences : Z;
  NumberOfPfnReferences : Z;
  NumberOfMappedViews : Z;
  NumberOfUserReferences : Z;
  WaitingForDeletion : Z;
  Flags_str : string;
  FilePointer : option FILE_OBJECT
}.

(** A pointer field: its raw value and what it points to, when the target
    can be read from the image. *)
Record Pointer (T : Type) : Type := {
  ptr_v : Z;
  ptr_target : option T
}.
Arguments ptr_v {T} _.
Arguments ptr_target {T} _.

(** Modelled from the spec: the truth value of a pointer object, whose class
    is not part of this file. A reference counts as present when it is
    resolvable, and a resolvable-but-zero reference is equivalent to
    absent. *)
Definition resolve {T} (p : Pointer T) : option T :=
  if ptr_v p =? 0 then None else ptr_target p.

(** One VAD node ([_MMVAD_SHORT], [_MMVAD_LONG], or the undecided [_MMVAD]
    that a bad tag leaves behind). *)
Record Vad : Type := {
  obj_offset : Z;
  obj_type : string;
  Tag : string;
  get_start : Z;
  get_end : Z;
  Parent : Z;
  LeftChild : Z;
  RightChild : Z;
  VadFlags : MMVAD_FLAGS;
  ControlArea : option (Pointer CONTROL_AREA);
  FirstPrototypePte : option Z;
  LastContiguousPte : option Z;
  VadFlags2_str : option string
}.

(** ** [VADInfo] *)

Module VADInfo.

Definition PROTECT_LABELS : list string := [
  "PAGE_NOACCESS";
  "PAGE_READONLY";
  "PAGE_EXECUTE";
  "PAGE_EXECUTE_READ";
  "PAGE_READWRITE";
  "PAGE_WRITECOPY";
  "PAGE_EXECUTE_READWRITE";
  "PAGE_EXECUTE_WRITECOPY";
  "PAGE_NOACCESS";
  "PAGE_NOCACHE | PAGE_READONLY";
  "PAGE_NOCACHE | PAGE_EXECUTE";
  "PAGE_NOCACHE | PAGE_EXECUTE_READ";
  "PAGE_NOCACHE | PAGE_READWRITE";
  "PAGE_NOCACHE | PAGE_WRITECOPY";
  "PAGE_NOCACHE | PAGE_EXECUTE_READWRITE";
  "PAGE_NOCACHE | PAGE_EXECUTE_WRITECOPY";
  "PAGE_NOACCESS";
  "PAGE_GUARD | PAGE_READONLY";
  "PAGE_GUARD | PAGE_EXECUTE";
  "PAGE_GUARD | PAGE_EXECUTE_READ";
  "PAGE_GUARD | PAGE_READWRITE";
  "PAGE_GUARD | PAGE_WRITECOPY";
  "PAGE_GUARD | PAGE_EXECUTE_READWRITE";
  "PAGE_GUARD | PAGE_EXECUTE_WRITECOPY";
  "PAGE_NOACCESS";
  "PAGE_WRITECOMBINE | PAGE_READONLY";
  "PAGE_WRITECOMBINE | PAGE_EXECUTE";
  "PAGE_WRITECOMBINE | PAGE_EXECUTE_READ";
  "PAGE_WRITECOMBINE | PAGE_READWRITE";
  "PAGE_WRITECOMBINE | PAGE_WRITECOPY";
  "PAGE_WRITECOMBINE | PAGE_EXECUTE_READWRITE";
  "PAGE_WRITECOMBINE | PAGE_EXECUTE_WRITECOPY"
].

(** [PROTECT_FLAGS = dict(enumerate([...]))] *)
Definition PROTECT_FLAGS : gmap Z string :=
  Py.dict (Py.enumerate PROTECT_LABELS).

Definition VAD_TYPE_LABELS : list string := [
  "VadNone";
  "VadDevicePhysicalMemory";
  "VadImageMap";
  "VadAwe";
  "VadWriteWatch";
  "VadLargePages";
  "VadRotatePhysical";
  "VadLargePageSection"
].

(** [MI_VAD_TYPE = dict(enumerate([...]))] *)
Definition MI_VAD_TYPE : gmap Z string :=
  Py.dict (Py.enumerate VAD_TYPE_LABELS).

(** [self.PROTECT_FLAGS.get(Protection.v(), hex(Protection))] *)
Definition decode_protection (code : Z) : string :=
  Py.get PROTECT_FLAGS code (Py.hex code).

(** [self.MI_VAD_TYPE.get(VadType.v(), hex(VadType))] *)
Definition decode_vad_type (code : Z) : string :=
  Py.get MI_VAD_TYPE code (Py.hex code).

Definition write_vad_short (vad : Vad) : M unit :=
  write ("VAD node @" ++ Py.fmt_0x 8 (obj_offset vad)
         ++ " Start " ++ Py.fmt_0x 8 (get_start vad)
         ++ " End " ++ Py.fmt_0x 8 (get_end vad)
         ++ " Tag " ++ Py.fmt_s 4 (Tag vad) ++ "
") ;;;
  write ("Flags: " ++ VadFlags_str (VadFlags vad) ++ "
") ;;;
  write ("Protection: "
         ++ decode_protection (Protection (VadFlags vad)) ++ "
") ;;;
  match VadType (VadFlags vad) with
  | Some ty => write ("Vad Type: " ++ decode_vad_type ty ++ "
")
  | None => ret tt
  end.

(** The lines printed for a control area that passed both checks. *)
Definition write_control_area (ca : CONTROL_AREA) : M unit :=
  write ("ControlArea @" ++ Py.fmt_0x 8 (ca_obj_offset ca)
         ++ " Segment " ++ Py.fmt_0x 8 (Segment ca) ++ "
") ;;;
  write ("Dereference list: Flink " ++ Py.fmt_0x 8 (Flink ca)
         ++ ", Blink " ++ Py.fmt_0x 8 (Blink ca) ++ "
") ;;;
  write ("NumberOfSectionReferences: "
         ++ Py.fmt_d 10 (NumberOfSectionReferences ca)
         ++ " NumberOfPfnReferences:  "
         ++ Py.fmt_d 10 (NumberOfPfnReferences ca) ++ "
") ;;;
  write ("NumberOfMappedViews:       "
         ++ Py.fmt_d 10 (NumberOfMappedViews ca)
         ++ " NumberOfUserReferences: "
         ++ Py.fmt_d 10 (NumberOfUserReferences ca) ++ "
") ;;;
  write ("WaitingForDeletion Event:  "
         ++ Py.fmt_0x 8 (WaitingForDeletion ca) ++ "
") ;;;
  write ("Control Flags: " ++ Flags_str ca ++ "
") ;;;
  match FilePointer ca with
  | Some file_object =>
      if negb (fo_obj_offset file_object =? 0) then
        write ("FileObject @" ++ Py.fmt_0x 8 (fo_obj_offset file_object)
               ++ " FileBuffer @ "
               ++ Py.fmt_0x 8 (FileName_Buffer file_object)
               ++ "          , Name: " ++ FileName file_object ++ "
")
      else ret tt
  | None => ret tt
  end.

Definition write_vad_control (vad : Vad) : M unit :=
  if PrivateMemory (VadFlags vad) =? 1 then ret tt
  else
    let* control_area := getattr "ControlArea" (ControlArea vad) in
    match resolve control_area with
    | None => ret tt
    | Some ca => write_control_area ca
    end.

Definition write_vad_ext (vad : Vad) : M unit :=
  if negb (String.eqb (obj_type vad) "_MMVAD_SHORT") then
    let* first := getattr "FirstPrototypePte" (FirstPrototypePte vad) in
    let* last := getattr "LastContiguousPte" (LastContiguousPte vad) in
    write ("First prototype PTE: " ++ Py.fmt_0x 8 first
           ++ " Last contiguous PTE: " ++ Py.fmt_0x 8 last ++ "
") ;;;
    let* flags2 := getattr "VadFlags2" (VadFlags2_str vad) in
    write ("Flags2: " ++ flags2 ++ "
")
  else ret tt.

(** The body of the loop over [task.VadRoot.traverse()] in [render]; [vad]
    is the result of [vad.dereference()]. *)
Definition render_vad (vad : option Vad) : M unit :=
  match vad with
  | Some vad =>
      if negb (obj_offset vad =? 0) then
        except_AttributeError (write_vad_short vad) ;;;
        except_AttributeError (write_vad_control vad) ;;;
        except_AttributeError (write_vad_ext vad)
      else ret tt
  | None => ret tt
  end ;;;
  write "
".

(** [render] for one task; [vads] is what [task.VadRoot.traverse()] yields,
    each entry already dereferenced. *)
Definition render_task (pid : Z) (vads : list (option Vad)) : M unit :=
  write (Py.times "*" 72 ++ "
") ;;;
  write ("Pid: " ++ Py.fmt_d 6 pid ++ "
") ;;;
  for_each vads render_vad.

End VADInfo.

(** ** [VADTree] *)

Module VADTree.

(** [" " * level + "{0:08x} - {1:08x}\n".format(start, end)] *)
Definition format_row (row : Vad * Z) : string :=
  Py.times " " row.2 ++ Py.fmt_0x 8 (get_start row.1) ++ " - "
  ++ Py.fmt_0x 8 (get_end row.1) ++ "
".

(** The loop over [task.VadRoot.traverse()] in [render]; [levels] is the
    dictionary keyed by node offset, as it stands when the loop reaches
    [vads]. *)
Fixpoint render_vads (levels : gmap Z Z) (vads : list (option Vad)) : M unit :=
  match vads with
  | [] => ret tt
  | Some vad :: vads' =>
      let level := Py.get levels (Parent vad) (-1) + 1 in
      let levels := <[obj_offset vad := level]> levels in
      write (format_row (vad, level)) ;;;
      render_vads levels vads'
  | None :: vads' => render_vads levels vads'
  end.

(** [render] for one task, with [levels = {}] at the start. *)
Definition render_task (pid : Z) (vads : list (option Vad)) : M unit :=
  write (Py.times "*" 72 ++ "
") ;;;
  write ("Pid: " ++ Py.fmt_d 6 pid ++ "
") ;;;
  render_vads ∅ vads.

(** *** The loop as a fold

    The same loop with the text left out: one turn takes the dictionary and
    the rows printed so far, each a node with its level, to their values
    after the turn. *)
Definition visit (st : gmap Z Z * list (Vad * Z)) (vad : option Vad)
  : gmap Z Z * list (Vad * Z) :=
  match vad with
  | Some vad =>
      let level := Py.get st.1 (Parent vad) (-1) + 1 in
      (<[obj_offset vad := level]> st.1, (st.2 ++ [(vad, level)])%list)
  | None => st
  end.

Definition walk_levels (vads : list (option Vad)) : gmap Z Z * list (Vad * Z) :=
  foldl visit (∅, []) vads.

(** The nodes in the order they are printed, each with its level. *)
Definition rows (vads : list (option Vad)) : list (Vad * Z) :=
  (walk_levels vads).2.

End VADTree.

(** ** The address space of a process *)

(** The per-process translator the plugin is handed: [vtop] maps a virtual
    address to an offset in the image, or to nothing when the address is not
    resident; [image] is the content of the image at an offset. *)
Record AddressSpace : Type := {
  vtop : Z -> option Z;
  image : Z -> byte
}.

Definition PAGE_SIZE : Z := 4096.

(** Modelled from the spec: the translator's bulk reader [zread], which is
    not part of this file. It reads the range page by page through the
    translator; a chunk whose page does not resolve is replaced by as many
    zero bytes. *)
Definition read_chunk (space : AddressSpace) (vaddr len : Z)
  : option (list byte) :=
  match vtop space vaddr with
  | Some paddr => Some (image space <$> seqZ paddr len)
  | None => None
  end.

(** Modelled from the spec: the loop of [zread] over the chunks of the
    range; [fuel] bounds the number of chunks. *)
Fixpoint zread_chunks (fuel : nat) (space : AddressSpace) (vaddr length : Z)
  : list byte :=
  match fuel with
  | O => []
  | S fuel' =>
      if length <=? 0 then []
      else
        let chunk_len := Z.min length (PAGE_SIZE - vaddr mod PAGE_SIZE) in
        let buf := default (replicate (Z.to_nat chunk_len) x00)
                           (read_chunk space vaddr chunk_len) in
        (buf ++ zread_chunks fuel' space (vaddr + chunk_len)
                             (length - chunk_len))%list
  end.

(** Modelled from the spec: [zread(vaddr, length)]. Every chunk holds at
    least one byte, so [length] chunks always suffice. *)
Definition zread (space : AddressSpace) (vaddr length : Z) : list byte :=
  zread_chunks (Z.to_nat length) space vaddr length.

(** ** [VADDump] *)

(** What the plugin sees of the operating system: which paths are
    directories, and which paths [open(path, 'wb')] can create. *)
Record OS : Type := {
  isdir : string -> bool;
  can_open : string -> bool
}.

Record Session : Type := {
  session_dump_dir : option string
}.

Record Task : Type := {
  UniqueProcessId : Z;
  task_obj_offset : Z;
  ImageFileName : string;
  get_process_address_space : AddressSpace;
  VadRoot_traverse : list (option Vad)
}.

Module VADDump.

Record t : Type := {
  dump_dir : string;
  verbose : bool
}.

(** [a or b] on optional strings: [None] and the empty string are falsy. *)
Definition or_else (a b : option string) : option string :=
  match a with
  | Some s => if decide (s = "") then b else a
  | None => b
  end.

(** [if self.session: dump_dir = dump_dir or self.session.dump_dir] *)
Definition effective_dump_dir (session : option Session)
    (dump_dir : option string) : option string :=
  match session with
  | Some session => or_else dump_dir (session_dump_dir session)
  | None => dump_dir
  end.

(** [__init__(self, dump_dir=None, verbose=False, **kwargs)]. The module
    never imports [debug], so reaching [debug.error] raises [NameError]. *)
Definition init (os : OS) (session : option Session)
    (dump_dir : option string) (verbose : bool) : exn + t :=
  match effective_dump_dir session dump_dir with
  | None => inl (PluginError "Dump directory not specified.")
  | Some dir =>
      if negb (isdir os dir) then inl (NameError "debug")
      else inr {| dump_dir := dir; verbose := verbose |}
  end.

(** [open(path, 'wb')]: creates or truncates the file. *)
Definition open_wb (os : OS) (path : string) : M unit :=
  fun w => if can_open os path
           then (inr tt, mkWorld (outfd w) (<[path := []]> (files w)))
           else (inl (IOError path), w).

(** [f.write(data)] on the file opened at [path]. *)
Definition file_write (path : string) (data : list byte) : M unit :=
  fun w => (inr tt,
            mkWorld (outfd w)
                    (<[path := (default [] (files w !! path) ++ data)%list]>
                       (files w))).

(** ["{0}.{1:x}.{2:08x}-{3:08x}.dmp".format(name, offset, start, end)]
    joined to the dump directory. *)
Definition dump_path (self : t) (name : string) (offset start end_ : Z)
  : string :=
  Py.path_join (dump_dir self)
    (name ++ "." ++ Py.fmt_x offset ++ "." ++ Py.fmt_0x 8 start ++ "-"
     ++ Py.fmt_0x 8 end_ ++ ".dmp").

(** [task_space.zread(start, end - start + 1)] *)
Definition extract (task_space : AddressSpace) (vad : Vad) : list byte :=
  zread task_space (get_start vad) (get_end vad - get_start vad + 1).

(** The test that lets a traversed entry through to the dump. *)
Definition accepted (vad : option Vad) : bool :=
  match vad with
  | Some vad => negb (String.eqb (obj_type vad) "_MMVAD")
  | None => false
  end.

(** The body of the loop over [task.VadRoot.traverse()] in [render]. *)
Definition dump_vad (self : t) (os : OS) (task_space : AddressSpace)
    (name : string) (offset : Z) (vad : option Vad) : M unit :=
  match vad with
  | None => ret tt
  | Some vad =>
      if String.eqb (obj_type vad) "_MMVAD" then ret tt
      else
        let start := get_start vad in
        let end_ := get_end vad in
        let path := dump_path self name offset start end_ in
        open_wb os path ;;;
        let range_data := zread task_space start (end_ - start + 1) in
        (if verbose self then write ("Writing VAD for " ++ path ++ "
") else ret tt) ;;;
        file_write path range_data
  end.

(** The body of the loop over [self.filter_processes()] in [render]. *)
Definition render_task (self : t) (os : OS) (task : Task) : M unit :=
  write ("Pid: " ++ Py.fmt_d 6 (UniqueProcessId task) ++ "
") ;;;
  let task_space := get_process_address_space task in
  let name := ImageFileName task in
  match vtop task_space (task_obj_offset task) with
  | None => write "Process does not have a valid address space.
"
  | Some offset =>
      write (Py.times "*" 72 ++ "
") ;;;
      for_each (VadRoot_traverse task)
               (dump_vad self os task_space name offset)
  end.

Definition render (self : t) (os : OS) (tasks : list Task) : M unit :=
  for_each tasks (render_task self os).

(** One run of the plugin: construction, then [render]. *)
Definition run (os : OS) (session : option Session)
    (dump_dir : option string) (verbose : bool) (tasks : list Task) : M unit :=
  match init os session dump_dir verbose with
  | inl e => raise e
  | inr self => render self os tasks
  end.

(** *** What a dump leaves behind *)

(** Storing one file. *)
Definition store (fs : gmap string (list byte)) (kv : string * list byte)
  : gmap string (list byte) :=
  <[kv.1 := kv.2]> fs.

(** The file written for a node: its name and its content. *)
Definition region (self : t) (task_space : AddressSpace) (name : string)
    (offset : Z) (vad : Vad) : string * list byte :=
  (dump_path self name offset (get_start vad) (get_end vad),
   extract task_space vad).

(** The files of the accepted entries of a traversal, in order. *)
Fixpoint regions (self : t) (task_space : AddressSpace) (name : string)
    (offset : Z) (vads : list (option Vad)) : list (string * list byte) :=
  match vads with
  | [] => []
  | Some vad :: vads' =>
      if accepted (Some vad)
      then region self task_space name offset vad
           :: regions self task_space name offset vads'
      else regions self task_space name offset vads'
  | None :: vads' => regions self task_space name offset vads'
  end.

(** A file is one that the snapshot gives rise to: the region of an accepted
    node of a task whose control block resolves. *)
Definition from_snapshot (self : t) (tasks : list Task)
    (kv : string * list byte) : Prop :=
  ∃ task offset vad,
    task ∈ tasks
    ∧ vtop (get_process_address_space task) (task_obj_offset task)
      = Some offset
    ∧ Some vad ∈ VadRoot_traverse task
    ∧ accepted (Some vad) = true
    ∧ kv = region self (get_process_address_space task)
                  (ImageFileName task) offset vad.

(** A computation that does the same in every world: its outcome, the text
    it prints and the files it stores are fixed in advance, and every file
    it stores satisfies [P]. *)
Definition writes_only (P : string * list byte -> Prop) (m : M unit) : Prop :=
  ∃ (r : exn + unit) (out : list string) (kvs : list (string * list byte)),
    Forall P kvs
    ∧ ∀ w, m w = (r, mkWorld (outfd w ++ out) (foldl store (files w) kvs)).

End VADDump.

(** ** The tree walker *)

Module Walker.

Record result : Type := {
  yielded : list Vad;
  truncated : bool
}.

(** Modelled from the spec: the child references still to visit, left
    before right; a null reference is dropped. *)
Definition children (vad : Vad) : list Z :=
  filter (fun ref => ref ≠ 0) [LeftChild vad; RightChild vad].

(** Modelled from the spec: [task.VadRoot.traverse()], which is not part of
    this file. The references still to visit are kept on a stack; each turn
    takes one, materializes it from the arena, yields it and pushes its
    children. A reference that does not materialize is skipped. [cap] bounds
    the number of references visited; when it is used up while references
    remain, the walk stops and reports truncation. *)
Fixpoint traverse_stack (arena : gmap Z Vad) (cap : nat) (stack : list Z)
  : result :=
  match stack with
  | [] => {| yielded := []; truncated := false |}
  | ref :: rest =>
      match cap with
      | O => {| yielded := []; truncated := true |}
      | S cap' =>
          match arena !! ref with
          | None => traverse_stack arena cap' rest
          | Some vad =>
              let r := traverse_stack arena cap' (children vad ++ rest) in
              {| yielded := vad :: yielded r; truncated := truncated r |}
          end
      end
  end.

(** Modelled from the spec: the traversal started at the root reference; a
    null root is an empty walk. *)
Definition traverse (arena : gmap Z Vad) (cap : nat) (root : Z) : result :=
  traverse_stack arena cap (filter (fun ref => ref ≠ 0) [root]).

(** Modelled from the spec: [walk(root_ref)], the nodes of the traversal
    with the level that [VADTree.render] computes for them, and whether the
    traversal was truncated. *)
Definition walk (arena : gmap Z Vad) (cap : nat) (root : Z)
  : list (Vad * Z) * bool :=
  let r := traverse arena cap root in
  (VADTree.rows (Some <$> yielded r), truncated r).

End Walker.

(** ** Shapes of computations *)

(** A computation that only prints: in every world it ends with outcome [r]
    after appending [out] to the text, the files left as they were. *)
Definition prints (m : M unit) (r : exn + unit) (out : list string) : Prop :=
  ∀ w, m w = (r, mkWorld (outfd w ++ out) (files w)).

(** Two results that agree on everything but the text printed. *)
Definition same_outcome (a b : (exn + unit) * World) : Prop :=
  a.1 = b.1 ∧ files a.2 = files b.2.

(** The control block of the task resolves in the task's address space. *)
Definition has_address_space (task : Task) : bool :=
  bool_decide (is_Some (vtop (get_process_address_space task)
                             (task_obj_offset task))).

(** The files of all the tasks of a run, in the order [render] reaches
    them: for each task whose control block resolves, the regions of its
    traversal. *)
Fixpoint snapshot_regions (self : VADDump.t) (tasks : list Task)
  : list (string * list byte) :=
  match tasks with
  | [] => []
  | task :: tasks' =>
      match vtop (get_process_address_space task) (task_obj_offset task) with
      | Some offset =>
          VADDump.regions self (get_process_address_space task)
            (ImageFileName task) offset (VadRoot_traverse task)
      | None => []
      end ++ snapshot_regions self tasks'
  end.

(** Every character of the string is a hexadecimal digit. *)
Fixpoint all_hex (s : string) : bool :=
  match s with
  | EmptyString => true
  | String c s' =>
      match HexString.ascii_to_digit c with
      | Some _ => all_hex s'
      | None => false
      end
  end.

(** ** Well-formed trees of nodes

    The shape a traversal has on an image that is not corrupt: a binary tree
    of nodes, walked root first, then the left subtree, then the right. *)

Inductive vad_tree : Type :=
| Leaf
| Node (vad : Vad) (left right : vad_tree).

Fixpoint preorder (t : vad_tree) : list Vad :=
  match t with
  | Leaf => []
  | Node vad l r => vad :: preorder l ++ preorder r
  end.

(** The nodes in pre-order, each with its depth, the root at depth [d]. *)
Fixpoint preorder_depth (d : Z) (t : vad_tree) : list (Vad * Z) :=
  match t with
  | Leaf => []
  | Node vad l r =>
      (vad, d) :: preorder_depth (d + 1) l ++ preorder_depth (d + 1) r
  end.

(** Every node names the node above it as its parent ([parent] for the
    root), and no node of a left subtree has the offset of the node the
    subtree hangs from. *)
Fixpoint parents_agree (parent : Z) (t : vad_tree) : Prop :=
  match t with
  | Leaf => True
  | Node vad l r =>
      Parent vad = parent
      ∧ parents_agree (obj_offset vad) l
      ∧ parents_agree (obj_offset vad) r
      ∧ obj_offset vad ∉ (obj_offset <$> preorder l)
  end.

(** ** Concrete nodes for the examples *)

Definition private_flags : MMVAD_FLAGS :=
  {| Protection := 4; PrivateMemory := 1; VadType := Some 0;
     VadFlags_str := "" |}.

Definition short_vad (offset start end_ parent left right : Z) : Vad :=
  {| obj_offset := offset; obj_type := "_MMVAD_SHORT"; Tag := "VadS";
     get_start := start; get_end := end_;
     Parent := parent; LeftChild := left; RightChild := right;
     VadFlags := private_flags; ControlArea := None;
     FirstPrototypePte := None; LastContiguousPte := None;
     VadFlags2_str := None |}.

(** The three-node tree: [node_A] is the root, [node_B] its left child,
    [node_C] the right child of [node_B]. *)
Definition node_A : Vad :=
  short_vad 0x81000100 0x1000 0x1fff 0 0x81000200 0.
Definition node_B : Vad :=
  short_vad 0x81000200 0x2000 0x2fff 0x81000100 0 0x81000300.
Definition node_C : Vad :=
  short_vad 0x81000300 0x3000 0x3fff 0x81000200 0 0.

Definition three_node_arena : gmap Z Vad :=
  <[obj_offset node_A := node_A]>
    (<[obj_offset node_B := node_B]> (<[obj_offset node_C := node_C]> ∅)).

(** A node whose parent reference points at nothing that was visited. *)
Definition orphan : Vad :=
  short_vad 0x81000400 0x4000 0x4fff 0xdeadbeef 0 0.

(** A root whose left child is the root itself. *)
Definition self_loop : Vad :=
  short_vad 0x81000500 0x5000 0x5fff 0 0x81000500 0.

Definition self_loop_arena : gmap Z Vad :=
  <[obj_offset self_loop := self_loop]> ∅.

(** A mapped (shared) region with a control area, and the same region with a
    null control-area pointer whose target address nevertheless reads. *)
Definition shared_flags : MMVAD_FLAGS :=
  {| Protection := 7; PrivateMemory := 0; VadType := Some 2;
     VadFlags_str := "" |}.

Definition some_control_area : CONTROL_AREA :=
  {| ca_obj_offset := 0x82000000; Segment := 0xe1000000;
     Flink := 0; Blink := 0;
     NumberOfSectionReferences := 1; NumberOfPfnReferences := 12;
     NumberOfMappedViews := 1; NumberOfUserReferences := 2;
     WaitingForDeletion := 0; Flags_str := "Image, File";
     FilePointer := None |}.

Definition mapped_vad (pointer : Z) : Vad :=
  {| obj_offset := 0x81000600; obj_type := "_MMVAD_LONG"; Tag := "Vadl";
     get_start := 0x400000; get_end := 0x40ffff;
     Parent := 0; LeftChild := 0; RightChild := 0;
     VadFlags := shared_flags;
     ControlArea :=
       Some {| ptr_v := pointer; ptr_target := Some some_control_area |};
     FirstPrototypePte := Some 0xe1001000;
     LastContiguousPte := Some 0xfffffffc;
     VadFlags2_str := Some "" |}.

Definition empty_world : World := mkWorld [] ∅.

(** A node whose end lies below its start. *)
Definition inverted_vad : Vad :=
  short_vad 0x81000700 0x3000 0x1fff 0 0 0.

(** An address space in which nothing is resident. *)
Definition empty_space : AddressSpace :=
  {| vtop := fun _ => None; image := fun _ => x00 |}.

(** A dump of one process with two regions, into a directory in which one
    destination cannot be created. *)
Definition dump_self : VADDump.t :=
  {| VADDump.dump_dir := "/tmp/dump"; VADDump.verbose := false |}.

Definition lsass_space : AddressSpace :=
  {| vtop := fun a => if a =? 0x8a000000 then Some 0x0a000000 else None;
     image := fun _ => x00 |}.

Definition lsass : Task :=
  {| UniqueProcessId := 700; task_obj_offset := 0x8a000000;
     ImageFileName := "lsass.exe";
     get_process_address_space := lsass_space;
     VadRoot_traverse := [Some node_A; Some node_B] |}.

Definition path_A : string :=
  "/tmp/dump/lsass.exe.a000000.00001000-00001fff.dmp".
Definition path_B : string :=
  "/tmp/dump/lsass.exe.a000000.00002000-00002fff.dmp".

Definition os_with_locked (locked : string) : OS :=
  {| isdir := fun p => String.eqb p "/tmp/dump";
     can_open := fun p => negb (String.eqb p locked) |}.

(** A node whose tag was not recognised: its type stays [_MMVAD]. *)
Definition bad_tag_vad : Vad :=
  {| obj_offset := 0x81000800; obj_type := "_MMVAD"; Tag := "????";
     get_start := 0x8000; get_end := 0x8fff;
     Parent := 0; LeftChild := 0; RightChild := 0;
     VadFlags := private_flags; ControlArea := None;
     FirstPrototypePte := None; LastContiguousPte := None;
     VadFlags2_str := None |}.

(** A process whose control block resolves and whose traversal holds the
    node with the inverted range, and the name of that node's file. *)
Definition inverted_task : Task :=
  {| UniqueProcessId := 700; task_obj_offset := 0x8a000000;
     ImageFileName := "lsass.exe";
     get_process_address_space := lsass_space;
     VadRoot_traverse := [Some inverted_vad] |}.

Definition path_inverted : string :=
  "/tmp/dump/lsass.exe.a000000.00003000-00001fff.dmp".

(** A process whose control block resolves and whose traversal holds
    nothing to dump: an entry that did not dereference and a node with a
    bad tag. *)
Definition quiet_task : Task :=
  {| UniqueProcessId := 704; task_obj_offset := 0x8a000000;
     ImageFileName := "smss.exe";
     get_process_address_space := lsass_space;
     VadRoot_traverse := [None; Some bad_tag_vad] |}.

(** The three nodes as a tree. *)
Definition three_node_tree : vad_tree :=
  Node node_A (Node node_B Leaf (Node node_C Leaf Leaf)) Leaf.

(** * Properties *)

(** ** The built-ins on examples *)

Example hex_32 : Py.hex 32 = "0x20".
Proof. reflexivity. Qed.
Example fmt_08x_ex : Py.fmt_0x 8 4096 = "00001000".
Proof. reflexivity. Qed.
Example fmt_08x_neg : Py.fmt_0x 8 (-255) = "-00000ff".
Proof. reflexivity. Qed.
Example fmt_d_ex : Py.fmt_d 6 1234 = "  1234".
Proof. reflexivity. Qed.
Example fmt_d_zero : Py.fmt_d 6 0 = "     0".
Proof. reflexivity. Qed.
Example path_join_ex : Py.path_join "/tmp/out" "a.dmp" = "/tmp/out/a.dmp".
Proof. reflexivity. Qed.
Example path_A_is_the_name_of_node_A :
  VADDump.dump_path dump_self "lsass.exe" 0x0a000000 0x1000 0x1fff = path_A.
Proof. reflexivity. Qed.

(** ** Dictionaries built from enumerated lists *)

Section dict_enumerate.
Context {A : Type}.

Lemma foldl_enumerate_lookup (l : list A) (s i : Z) (m0 : gmap Z A) :
  foldl (fun m kv => <[kv.1 := kv.2]> m) m0 (Py.enumerate_from s l) !! i
  = if decide (s <= i < s + Z.of_nat (length l))
    then l !! Z.to_nat (i - s)
    else m0 !! i.
Proof.
  revert s m0. induction l as [|x l IH]; intros s m0; simpl.
  - case_decide; [lia | done].
  - rewrite IH. repeat case_decide; try lia.
    + replace (Z.to_nat (i - s)) with (S (Z.to_nat (i - (s + 1)))) by lia.
      done.
    + assert (i = s) as -> by lia.
      rewrite lookup_insert_eq. by replace (s - s) with 0 by lia.
    + rewrite lookup_insert_ne; [done | lia].
Qed.

Lemma dict_enumerate_lookup (l : list A) (i : Z) :
  Py.dict (Py.enumerate l) !! i
  = if decide (0 <= i < Z.of_nat (length l)) then l !! Z.to_nat i else None.
Proof.
  unfold Py.dict, Py.enumerate. rewrite foldl_enumerate_lookup.
  rewrite Z.sub_0_r, lookup_empty. simpl. done.
Qed.

Lemma get_dict_enumerate_in (l : list A) (i : Z) (dflt : A) :
  0 <= i < Z.of_nat (length l) ->
  ∃ x, l !! Z.to_nat i = Some x ∧ Py.get (Py.dict (Py.enumerate l)) i dflt = x.
Proof.
  intros Hi. unfold Py.get. rewrite dict_enumerate_lookup.
  rewrite decide_True by done.
  destruct (lookup_lt_is_Some_2 l (Z.to_nat i)) as [x Hx]; [lia|].
  exists x. by rewrite Hx.
Qed.

Lemma get_dict_enumerate_out (l : list A) (i : Z) (dflt : A) :
  ¬ (0 <= i < Z.of_nat (length l)) ->
  Py.get (Py.dict (Py.enumerate l)) i dflt = dflt.
Proof.
  intros Hi. unfold Py.get. rewrite dict_enumerate_lookup.
  by rewrite decide_False.
Qed.

End dict_enumerate.

(** ** The flag decoders *)

(** C6. [decode_protection] and [decode_vad_type] are total functions of the
    code alone. The tables have 32 and 8 entries. A protection code in 0..31
    and a VAD type code in 0..7 is decoded to the entry of the table at that
    index. Any other code is decoded to its [hex] text, from which the raw
    value reads back. *)
Theorem decoders_total :
  length VADInfo.PROTECT_LABELS = 32%nat
  ∧ length VADInfo.VAD_TYPE_LABELS = 8%nat
  ∧ (∀ code, 0 <= code < 32 ->
       ∃ label, VADInfo.PROTECT_LABELS !! Z.to_nat code = Some label
                ∧ VADInfo.decode_protection code = label)
  ∧ (∀ code, 0 <= code < 8 ->
       ∃ label, VADInfo.VAD_TYPE_LABELS !! Z.to_nat code = Some label
                ∧ VADInfo.decode_vad_type code = label)
  ∧ (∀ code, ¬ (0 <= code < 32) ->
       VADInfo.decode_protection code = Py.hex code
       ∧ HexString.to_Z (VADInfo.decode_protection code) = code)
  ∧ (∀ code, ¬ (0 <= code < 8) ->
       VADInfo.decode_vad_type code = Py.hex code
       ∧ HexString.to_Z (VADInfo.decode_vad_type code) = code).
Proof.
  split; [done|]. split; [done|].
  unfold VADInfo.decode_protection, VADInfo.decode_vad_type,
    VADInfo.PROTECT_FLAGS, VADInfo.MI_VAD_TYPE.
  repeat split.
  - intros code Hc. by apply get_dict_enumerate_in.
  - intros code Hc. by apply get_dict_enumerate_in.
  - by rewrite get_dict_enumerate_out.
  - rewrite get_dict_enumerate_out by done. apply HexString.to_Z_of_Z.
  - by rewrite get_dict_enumerate_out.
  - rewrite get_dict_enumerate_out by done. apply HexString.to_Z_of_Z.
Qed.

Lemma decoders_total_witness :
  VADInfo.decode_protection 4 = "PAGE_READWRITE"
  ∧ VADInfo.decode_vad_type 2 = "VadImageMap"
  ∧ VADInfo.decode_protection 32 = "0x20"
  ∧ VADInfo.decode_vad_type (-1) = "-0x1".
Proof.
  destruct decoders_total as (_ & _ & Hp & Ht & Hpo & Hto).
  destruct (Hp 4 ltac:(lia)) as (lp & Hlp & ->).
  destruct (Ht 2 ltac:(lia)) as (lt & Hlt & ->).
  destruct (Hpo 32 ltac:(lia)) as [-> _].
  destruct (Hto (-1) ltac:(lia)) as [-> _].
  simpl in Hlp, Hlt. by simplify_eq.
Defined.

(** ** Levels in the tree display *)

Section levels.
Import VADTree.

Implicit Types (st : gmap Z Z * list (Vad * Z)) (vads : list (option Vad)).

Lemma foldl_visit_rows st vads :
  ∃ rs, (foldl visit st vads).2 = (st.2 ++ rs)%list.
Proof.
  revert st. induction vads as [|v vads IH]; intros st; simpl.
  - exists []. by rewrite app_nil_r.
  - destruct (IH (visit st v)) as [rs ->].
    destruct v as [v|]; simpl; [|by eauto].
    eexists. by rewrite <- app_assoc.
Qed.

(** Entries of the traversal that do not have offset [k] leave [levels[k]]
    as it was. *)
Lemma foldl_visit_levels_other st vads (k : Z) :
  (∀ v, Some v ∈ vads -> obj_offset v ≠ k) ->
  (foldl visit st vads).1 !! k = st.1 !! k.
Proof.
  revert st. induction vads as [|v vads IH]; intros st Hk; simpl; [done|].
  rewrite IH.
  - destruct v as [v|]; simpl; [|done].
    rewrite lookup_insert_ne; [done|]. apply Hk. left.
  - intros v' Hv'. apply Hk. by right.
Qed.

(** The row printed for a node: it comes right after the rows of the nodes
    before it, with the level read from the dictionary at that moment. *)
Lemma rows_at_node vads (vad : Vad) (post : list (option Vad)) :
  rows (vads ++ Some vad :: post) !! length (rows vads)
  = Some (vad, Py.get (walk_levels vads).1 (Parent vad) (-1) + 1).
Proof.
  unfold rows, walk_levels. rewrite foldl_app. cbn [foldl].
  destruct (foldl_visit_rows (visit (foldl visit (∅, []) vads) (Some vad)) post)
    as [rs ->].
  cbn [visit fst snd]. rewrite <- app_assoc. by apply list_lookup_middle.
Qed.

Lemma levels_at_node vads (vad : Vad) :
  (walk_levels (vads ++ [Some vad])).1 !! obj_offset vad
  = Some (Py.get (walk_levels vads).1 (Parent vad) (-1) + 1).
Proof.
  unfold walk_levels. rewrite foldl_app. simpl. by rewrite lookup_insert_eq.
Qed.

(** The rows already printed play no part in a turn of the loop. *)
Lemma foldl_visit_rows_from st vads :
  foldl visit st vads
  = ((foldl visit (st.1, []) vads).1,
     (st.2 ++ (foldl visit (st.1, []) vads).2)%list).
Proof.
  revert st. induction vads as [|v vads IH]; intros [lv rs]; simpl.
  - by rewrite app_nil_r.
  - destruct v as [v|]; simpl; [|apply IH].
    rewrite IH. simpl.
    rewrite (IH (_, [_])). simpl. by rewrite <- app_assoc.
Qed.

(** The text of the loop is the text of its rows. *)
Lemma render_vads_rows (levels : gmap Z Z) vads (w : World) :
  render_vads levels vads w
  = (inr tt,
     mkWorld (outfd w ++ (format_row <$> (foldl visit (levels, []) vads).2))
             (files w)).
Proof.
  revert levels w. induction vads as [|v vads IH]; intros levels w.
  - simpl. unfold ret. destruct w. simpl. by rewrite app_nil_r.
  - destruct v as [v|]; cbn [render_vads foldl visit fst snd]; [|apply IH].
    unfold bind, write. rewrite IH. cbn [outfd files].
    rewrite (foldl_visit_rows_from (_, ([] ++ [_])%list)).
    cbn [fst snd app]. rewrite fmap_cons.
    by rewrite <- app_assoc.
Qed.

Lemma render_task_rows (pid : Z) vads (w : World) :
  render_task pid vads w
  = (inr tt,
     mkWorld (outfd w
              ++ [Py.times "*" 72 ++ "
"; "Pid: " ++ Py.fmt_d 6 pid ++ "
"] ++ (format_row <$> rows vads))
             (files w)).
Proof.
  unfold render_task, bind, write. rewrite render_vads_rows.
  cbn [outfd files]. unfold rows, walk_levels.
  by rewrite <- !app_assoc.
Qed.

(** Every node visited has an entry in [levels]. *)
Lemma levels_visited vads (v : Vad) :
  Some v ∈ vads -> is_Some ((walk_levels vads).1 !! obj_offset v).
Proof.
  induction vads as [|x vads IH] using rev_ind; [by intros ?%elem_of_nil|].
  intros [Hin|Hlast%list_elem_of_singleton]%elem_of_app.
  - unfold walk_levels. rewrite foldl_app. simpl.
    destruct x as [x|]; simpl; [|by apply IH].
    destruct (decide (obj_offset x = obj_offset v)) as [->|Hne].
    + rewrite lookup_insert_eq. by eexists.
    + rewrite lookup_insert_ne by done. by apply IH.
  - subst x. rewrite levels_at_node. by eexists.
Qed.

End levels.

(** C10. The parent offset of a node is missing from [levels] exactly when
    no node with that offset came earlier in the traversal, whether the node
    is the root, comes before its parent, or names a parent that is never
    visited. Such a node is not skipped: its row is printed, with level 0,
    like a root. Nothing but the two header lines and the rows is printed. *)
Theorem level_zero_when_parent_unknown
    (pre : list (option Vad)) (vad : Vad) (post : list (option Vad)) :
  ((VADTree.walk_levels pre).1 !! Parent vad = None
   ↔ ∀ v, Some v ∈ pre -> obj_offset v ≠ Parent vad)
  ∧ ((VADTree.walk_levels pre).1 !! Parent vad = None ->
     VADTree.rows (pre ++ Some vad :: post) !! length (VADTree.rows pre)
     = Some (vad, 0))
  ∧ (∀ pid w,
       VADTree.render_task pid (pre ++ Some vad :: post) w
       = (inr tt,
          mkWorld (outfd w
                   ++ [Py.times "*" 72 ++ "
"; "Pid: " ++ Py.fmt_d 6 pid ++ "
"] ++ (VADTree.format_row <$> VADTree.rows (pre ++ Some vad :: post)))
                  (files w))).
Proof.
  split; [|split].
  - split.
    + intros Hnone v Hv Heq.
      destruct (levels_visited pre v Hv) as [d Hd]. congruence.
    + intros Hpre. unfold VADTree.walk_levels.
      by rewrite foldl_visit_levels_other.
  - intros Hnone. rewrite rows_at_node. unfold Py.get. by rewrite Hnone.
  - intros pid w. apply render_task_rows.
Qed.

Lemma level_zero_when_parent_unknown_witness :
  VADTree.rows [Some node_A; Some orphan] !! 1%nat = Some (orphan, 0).
Proof.
  destruct (level_zero_when_parent_unknown [Some node_A] orphan [])
    as (Hiff & Hrow & _).
  apply Hrow, Hiff.
  intros v Hv. apply list_elem_of_singleton in Hv. injection Hv as ->.
  vm_compute. discriminate.
Defined.

(** C3. The level printed for a node is the level of its parent plus one,
    the parent's level being the one entered in [levels] when the parent was
    visited; the first node of a traversal, the root, has level 0. The tree
    with root A, left child B of A and right child C of B is walked as
    [(A,0); (B,1); (C,2)]. *)
Theorem level_is_parent_level_plus_one :
  (∀ vad post, VADTree.rows (Some vad :: post) !! 0%nat = Some (vad, 0))
  ∧ (∀ pre1 p pre2 vad post d,
       obj_offset p = Parent vad ->
       (∀ v, Some v ∈ pre2 -> obj_offset v ≠ Parent vad) ->
       VADTree.rows (pre1 ++ Some p :: pre2 ++ Some vad :: post)
         !! length (VADTree.rows pre1) = Some (p, d) ->
       VADTree.rows (pre1 ++ Some p :: pre2 ++ Some vad :: post)
         !! length (VADTree.rows (pre1 ++ Some p :: pre2))
       = Some (vad, d + 1))
  ∧ (∀ cap, (3 <= cap)%nat ->
       Walker.walk three_node_arena cap (obj_offset node_A)
       = ([(node_A, 0); (node_B, 1); (node_C, 2)], false)).
Proof.
  split; [|split].
  - intros vad post. apply (rows_at_node [] vad post).
  - intros pre1 p pre2 vad post d Hp Hpre2 Hrow.
    rewrite rows_at_node in Hrow. injection Hrow as <-.
    replace (pre1 ++ Some p :: pre2 ++ Some vad :: post)%list
      with ((pre1 ++ Some p :: pre2) ++ Some vad :: post)%list
      by (by rewrite <- app_assoc).
    rewrite rows_at_node. do 2 f_equal.
    replace (pre1 ++ Some p :: pre2)%list
      with ((pre1 ++ [Some p]) ++ pre2)%list
      by (by rewrite <- app_assoc).
    unfold VADTree.walk_levels at 1. rewrite foldl_app.
    unfold Py.get at 1. rewrite foldl_visit_levels_other by done.
    fold (VADTree.walk_levels (pre1 ++ [Some p])).
    rewrite <- Hp, levels_at_node. done.
  - intros cap Hcap.
    destruct cap as [|[|[|[|cap]]]]; [lia..| |]; by vm_compute.
Qed.

Lemma level_is_parent_level_plus_one_witness :
  VADTree.rows [Some node_A; Some node_B; Some node_C] !! 2%nat
  = Some (node_C, 2)
  ∧ Walker.walk three_node_arena 3 (obj_offset node_A)
    = ([(node_A, 0); (node_B, 1); (node_C, 2)], false).
Proof.
  destruct level_is_parent_level_plus_one as (_ & Hstep & Hwalk).
  split; [|apply Hwalk; lia].
  apply (Hstep [Some node_A] node_B [] node_C [] 1).
  - reflexivity.
  - intros v Hv. by apply elem_of_nil in Hv.
  - reflexivity.
Defined.

(** ** The capped walk *)

Section capped_walk.
Import Walker.

Variable arena : gmap Z Vad.

Lemma traverse_stack_length (cap : nat) (stack : list Z) :
  (length (yielded (traverse_stack arena cap stack)) <= cap)%nat.
Proof.
  revert stack. induction cap as [|cap IH]; intros [|ref rest]; simpl;
    try lia.
  destruct (arena !! ref) as [vad|]; simpl.
  - specialize (IH (children vad ++ rest)%list). lia.
  - specialize (IH rest). lia.
Qed.

(** What a short walk yields is the beginning of what a longer one yields. *)
Lemma traverse_stack_prefix (cap cap' : nat) (stack : list Z) :
  (cap <= cap')%nat ->
  yielded (traverse_stack arena cap stack)
    `prefix_of` yielded (traverse_stack arena cap' stack).
Proof.
  revert cap' stack. induction cap as [|cap IH]; intros cap' stack Hle.
  - destruct stack; apply prefix_nil.
  - destruct cap' as [|cap']; [lia|].
    destruct stack as [|ref rest]; simpl; [done|].
    destruct (arena !! ref) as [vad|]; simpl.
    + apply prefix_cons, IH. lia.
    + apply IH. lia.
Qed.

(** A walk that was not truncated is complete: more room changes nothing. *)
Lemma traverse_stack_stable (cap cap' : nat) (stack : list Z) :
  (cap <= cap')%nat ->
  truncated (traverse_stack arena cap stack) = false ->
  traverse_stack arena cap' stack = traverse_stack arena cap stack.
Proof.
  revert cap' stack. induction cap as [|cap IH]; intros cap' stack Hle Ht.
  - destruct stack; [by destruct cap'|done].
  - destruct cap' as [|cap']; [lia|].
    destruct stack as [|ref rest]; simpl in *; [done|].
    destruct (arena !! ref) as [vad|]; simpl in *.
    + rewrite (IH cap') by (done || lia). done.
    + apply IH; [lia | done].
Qed.

(** A node that is its own left child keeps the stack from ever emptying. *)
Lemma traverse_stack_self_loop (root : Z) (vad : Vad) (cap : nat)
    (rest : list Z) :
  root ≠ 0 -> arena !! root = Some vad -> LeftChild vad = root ->
  traverse_stack arena cap (root :: rest)
  = {| yielded := replicate cap vad; truncated := true |}.
Proof.
  intros Hroot Hvad Hleft. revert rest.
  induction cap as [|cap IH]; intros rest; simpl; [done|].
  rewrite Hvad. unfold children. rewrite Hleft.
  rewrite filter_cons_True by done. simpl. by rewrite IH.
Qed.

End capped_walk.

(** C2. The walk is a total function of the arena, the cap and the root,
    whatever the shape of the arena. It yields at most [cap] nodes, each
    with a level. When it reports no truncation the enumeration is complete
    (a larger cap gives the same result); otherwise it still returns the
    nodes visited before the cap was reached, which begin every longer walk.
    A null root is an empty walk. On a root whose left child is the root
    itself the walk stops after [cap] nodes and reports truncation. *)
Theorem walk_terminates_with_cap (arena : gmap Z Vad) (cap : nat) (root : Z) :
  (length (Walker.walk arena cap root).1 <= cap)%nat
  ∧ length (Walker.walk arena cap root).1
    = length (Walker.yielded (Walker.traverse arena cap root))
  ∧ (∀ cap', (cap <= cap')%nat ->
       Walker.yielded (Walker.traverse arena cap root)
         `prefix_of` Walker.yielded (Walker.traverse arena cap' root))
  ∧ (∀ cap', (cap <= cap')%nat ->
       (Walker.walk arena cap root).2 = false ->
       Walker.walk arena cap' root = Walker.walk arena cap root)
  ∧ (root = 0 -> Walker.walk arena cap root = ([], false))
  ∧ (∀ vad, root ≠ 0 -> arena !! root = Some vad -> LeftChild vad = root ->
       (Walker.walk arena cap root).2 = true
       ∧ Walker.yielded (Walker.traverse arena cap root) = replicate cap vad).
Proof.
  assert (∀ vads : list Vad,
            length (VADTree.rows (Some <$> vads)) = length vads) as Hrows.
  { intros vads. induction vads as [|v vads IH] using rev_ind; [done|].
    rewrite fmap_app. simpl.
    pose proof (rows_at_node (Some <$> vads) v []) as Hrow.
    apply lookup_lt_Some in Hrow.
    unfold VADTree.rows, VADTree.walk_levels in *.
    rewrite foldl_app in *. simpl in *.
    rewrite !length_app in *. simpl in *. lia. }
  unfold Walker.walk, Walker.traverse. simpl.
  split; [|split; [|split; [|split; [|split]]]].
  - rewrite Hrows. apply traverse_stack_length.
  - apply Hrows.
  - intros cap' Hle. by apply traverse_stack_prefix.
  - intros cap' Hle Ht. by rewrite (traverse_stack_stable arena cap cap').
  - intros ->. by destruct cap.
  - intros vad Hroot Hvad Hleft. rewrite filter_cons_True by done. simpl.
    rewrite (traverse_stack_self_loop arena root vad) by done. done.
Qed.

Lemma walk_terminates_with_cap_witness :
  (Walker.walk self_loop_arena 5 (obj_offset self_loop)).2 = true
  ∧ Walker.yielded (Walker.traverse self_loop_arena 5 (obj_offset self_loop))
    = replicate 5 self_loop.
Proof.
  destruct (walk_terminates_with_cap self_loop_arena 5 (obj_offset self_loop))
    as (_ & _ & _ & _ & _ & Hloop).
  apply (Hloop self_loop); [by vm_compute | reflexivity | reflexivity].
Defined.

(** ** Control area details in the region report *)

Lemma write_control_area_writes (ca : CONTROL_AREA) (w : World) :
  (length (outfd w) < length (outfd (VADInfo.write_control_area ca w).2))%nat.
Proof.
  unfold VADInfo.write_control_area, bind, write, ret.
  destruct (FilePointer ca) as [fo|]; [destruct (negb _)|];
    cbn [outfd snd]; rewrite !length_app; cbn [length]; lia.
Qed.

(** Closes the branches of the case analysis in which both sides of every
    part are decided by the hypotheses at hand. *)
Ltac gate_case :=
  repeat split; intros;
  repeat match goal with
         | H : _ ∧ _ |- _ => destruct H
         | H : ∃ _, _ |- _ => destruct H
         end;
  simplify_eq/=; try done; try congruence.

(** C7. [write_vad_control] writes control area details exactly when the
    node is not private memory and its control area reference is present,
    different from zero and resolvable. For a private node the outcome is
    the same whatever the control area field holds, also when the record
    has no such field: nothing is written and nothing is raised. *)
Theorem control_area_only_for_shared (vad : Vad) (w : World) :
  (outfd (VADInfo.write_vad_control vad w).2 ≠ outfd w
   ↔ PrivateMemory (VadFlags vad) ≠ 1
     ∧ ∃ p ca, ControlArea vad = Some p ∧ ptr_v p ≠ 0
               ∧ ptr_target p = Some ca)
  ∧ (∀ p ca, PrivateMemory (VadFlags vad) ≠ 1 -> ControlArea vad = Some p ->
       ptr_v p ≠ 0 -> ptr_target p = Some ca ->
       VADInfo.write_vad_control vad w = VADInfo.write_control_area ca w)
  ∧ (∀ p, PrivateMemory (VadFlags vad) ≠ 1 -> ControlArea vad = Some p ->
       ptr_v p = 0 -> VADInfo.write_vad_control vad w = (inr tt, w))
  ∧ (PrivateMemory (VadFlags vad) = 1 ->
       VADInfo.write_vad_control vad w = (inr tt, w)).
Proof.
  unfold VADInfo.write_vad_control, getattr, resolve, bind, ret, raise.
  destruct (Z.eqb_spec (PrivateMemory (VadFlags vad)) 1) as [Hpriv|Hpriv];
    [by gate_case|].
  destruct (ControlArea vad) as [p|] eqn:Hca; [|by gate_case].
  destruct (Z.eqb_spec (ptr_v p) 0) as [Hz|Hz]; [by gate_case|].
  destruct (ptr_target p) as [ca|] eqn:Htgt; [|by gate_case].
  split; [split|by gate_case].
  - by eauto 10.
  - intros _ Heq. pose proof (write_control_area_writes ca w) as Hlen.
    rewrite Heq in Hlen. lia.
Qed.

Lemma control_area_only_for_shared_witness :
  VADInfo.write_vad_control (mapped_vad 0x82000000) empty_world
    = VADInfo.write_control_area some_control_area empty_world
  ∧ VADInfo.write_vad_control (mapped_vad 0) empty_world
    = (inr tt, empty_world)
  ∧ VADInfo.write_vad_control node_A empty_world = (inr tt, empty_world).
Proof.
  split; [|split].
  - destruct (control_area_only_for_shared (mapped_vad 0x82000000) empty_world)
      as (_ & H & _).
    eapply H; [by vm_compute | reflexivity | by vm_compute | reflexivity].
  - destruct (control_area_only_for_shared (mapped_vad 0) empty_world)
      as (_ & _ & H & _).
    eapply H; [by vm_compute | reflexivity | reflexivity].
  - destruct (control_area_only_for_shared node_A empty_world)
      as (_ & _ & _ & H).
    apply H. reflexivity.
Defined.

(** ** Reading a range with zero fill *)

Section zread.
Variable space : AddressSpace.

Lemma chunk_length (vaddr len : Z) :
  length (default (replicate (Z.to_nat len) x00) (read_chunk space vaddr len))
  = Z.to_nat len.
Proof.
  unfold read_chunk. destruct (vtop space vaddr); simpl.
  - by rewrite length_fmap, length_seqZ.
  - by rewrite length_replicate.
Qed.

Lemma chunk_len_bounds (vaddr length : Z) :
  0 < length ->
  0 < Z.min length (PAGE_SIZE - vaddr mod PAGE_SIZE) <= length.
Proof.
  intros Hlen. unfold PAGE_SIZE.
  pose proof (Z.mod_pos_bound vaddr 4096 ltac:(lia)). lia.
Qed.

Lemma zread_chunks_length (fuel : nat) (vaddr length : Z) :
  0 <= length <= Z.of_nat fuel ->
  List.length (zread_chunks fuel space vaddr length) = Z.to_nat length.
Proof.
  revert vaddr length. induction fuel as [|fuel IH]; intros vaddr len Hlen.
  - simpl. lia.
  - simpl. destruct (Z.leb_spec len 0) as [Hle|Hgt]; [simpl; lia|].
    pose proof (chunk_len_bounds vaddr len Hgt) as Hchunk.
    rewrite length_app, chunk_length, IH by lia. lia.
Qed.

Lemma zread_chunks_zero_fill (fuel : nat) (vaddr length i : Z) :
  0 <= i < length -> length <= Z.of_nat fuel ->
  (∀ a, a / PAGE_SIZE = (vaddr + i) / PAGE_SIZE -> vtop space a = None) ->
  zread_chunks fuel space vaddr length !! Z.to_nat i = Some x00.
Proof.
  revert vaddr length i.
  induction fuel as [|fuel IH]; intros vaddr len i Hi Hfuel Hpage; [lia|].
  simpl. rewrite (proj2 (Z.leb_gt len 0)) by lia.
  pose proof (chunk_len_bounds vaddr len ltac:(lia)) as Hchunk.
  set (chunk_len := Z.min len (PAGE_SIZE - vaddr mod PAGE_SIZE)) in *.
  destruct (decide (i < chunk_len)) as [Hin|Hout].
  - rewrite lookup_app_l by (rewrite chunk_length; lia).
    unfold read_chunk. rewrite Hpage.
    + simpl. apply lookup_replicate_2. lia.
    + unfold chunk_len, PAGE_SIZE in *.
      pose proof (Z.mod_pos_bound vaddr 4096 ltac:(lia)).
      rewrite (Z.div_mod vaddr 4096) at 2 by lia.
      rewrite <- Z.add_assoc, Z.mul_comm, Z.div_add_l by lia.
      rewrite (Z.div_small (vaddr mod 4096 + i)) by lia. lia.
  - rewrite lookup_app_r by (rewrite chunk_length; lia).
    rewrite chunk_length.
    replace (Z.to_nat i - Z.to_nat chunk_len)%nat
      with (Z.to_nat (i - chunk_len)) by lia.
    apply IH; [lia | lia |].
    intros a Ha. apply Hpage. rewrite Ha. f_equal. lia.
Qed.

End zread.


(** ** Dumping one node *)

Section dump_vad.
Import VADDump.
Variables (self : t) (os : OS) (task_space : AddressSpace) (name : string)
          (offset : Z).

Lemma dump_vad_rejected (vad : option Vad) (w : World) :
  accepted vad = false ->
  dump_vad self os task_space name offset vad w = (inr tt, w).
Proof.
  destruct vad as [vad|]; simpl; [|done].
  by destruct (String.eqb (obj_type vad) "_MMVAD").
Qed.

Lemma dump_vad_refused (vad : Vad) (w : World) :
  accepted (Some vad) = true ->
  can_open os (region self task_space name offset vad).1 = false ->
  dump_vad self os task_space name offset (Some vad) w
  = (inl (IOError (region self task_space name offset vad).1), w).
Proof.
  simpl. intros Hacc Hopen.
  destruct (String.eqb (obj_type vad) "_MMVAD"); [done|].
  unfold bind, open_wb. by rewrite Hopen.
Qed.

Lemma dump_vad_stored (vad : Vad) :
  accepted (Some vad) = true ->
  can_open os (region self task_space name offset vad).1 = true ->
  ∃ out, ∀ w,
    dump_vad self os task_space name offset (Some vad) w
    = (inr tt, mkWorld (outfd w ++ out)
                       (store (files w) (region self task_space name offset vad))).
Proof.
  simpl. intros Hacc Hopen.
  destruct (String.eqb (obj_type vad) "_MMVAD"); [done|].
  unfold bind, open_wb, file_write, write, ret, store, extract.
  rewrite Hopen.
  destruct (verbose self); eexists; intros w; simpl;
    rewrite lookup_insert_eq, insert_insert_eq; simpl; [done|].
  by rewrite (app_nil_r (outfd w)).
Qed.

End dump_vad.

(** ** Computations that do the same in every world *)

Section writes_only.
Import VADDump.
Variable P : string * list byte -> Prop.

Lemma world_eta (w : World) : mkWorld (outfd w ++ []) (files w) = w.
Proof. destruct w. simpl. by rewrite app_nil_r. Qed.

Lemma writes_only_ret : writes_only P (ret tt).
Proof.
  exists (inr tt), [], []. split; [done|]. intros w. unfold ret. simpl.
  by rewrite world_eta.
Qed.

Lemma writes_only_raise (e : exn) : writes_only P (raise e).
Proof.
  exists (inl e), [], []. split; [done|]. intros w. unfold raise. simpl.
  by rewrite world_eta.
Qed.

Lemma writes_only_write (s : string) : writes_only P (write s).
Proof. exists (inr tt), [s], []. by split. Qed.

Lemma writes_only_seq (m k : M unit) :
  writes_only P m -> writes_only P k -> writes_only P (m ;;; k).
Proof.
  intros (r1 & out1 & kvs1 & HP1 & Hm) (r2 & out2 & kvs2 & HP2 & Hk).
  destruct r1 as [e|[]].
  - exists (inl e), out1, kvs1. split; [done|]. intros w.
    unfold bind. by rewrite Hm.
  - exists r2, (out1 ++ out2)%list, (kvs1 ++ kvs2)%list.
    split; [by apply Forall_app|]. intros w.
    unfold bind. rewrite Hm, Hk. simpl.
    by rewrite foldl_app, app_assoc.
Qed.

Lemma writes_only_for_each {A} (xs : list A) (body : A -> M unit) :
  (∀ x, x ∈ xs -> writes_only P (body x)) ->
  writes_only P (for_each xs body).
Proof.
  induction xs as [|x xs IH]; intros Hbody; simpl.
  - apply writes_only_ret.
  - apply writes_only_seq.
    + apply Hbody. left.
    + apply IH. intros y Hy. apply Hbody. by right.
Qed.

End writes_only.

(** Storing the same files a second time changes nothing. *)
Lemma foldl_store_union (fs : gmap string (list byte))
    (kvs : list (string * list byte)) :
  foldl VADDump.store fs kvs = list_to_map (reverse kvs) ∪ fs.
Proof.
  induction kvs as [|kv kvs IH] using rev_ind.
  - simpl. by rewrite (left_id_L ∅ (∪)).
  - rewrite foldl_app, reverse_app. simpl. rewrite IH.
    unfold VADDump.store. by rewrite insert_union_l.
Qed.

Lemma foldl_store_idemp (fs : gmap string (list byte))
    (kvs : list (string * list byte)) :
  foldl VADDump.store (foldl VADDump.store fs kvs) kvs
  = foldl VADDump.store fs kvs.
Proof.
  rewrite !foldl_store_union.
  by rewrite (assoc_L (∪)), (idemp_L (∪)).
Qed.

(** ** The extracted range *)

(** C1, as stated, fails on a node whose end lies more than one byte below
    its start, in a process whose control block resolves: [render] accepts
    the node, opens its file and asks [zread] for a negative number of
    bytes. The run ends normally and the file holds what [extract]
    returned, which is no byte at all, while [end - start + 1] is negative:
    no byte stream has that length. *)
Lemma extract_length_inverted_range :
  vtop (get_process_address_space inverted_task)
       (task_obj_offset inverted_task) = Some 0x0a000000
  ∧ VADDump.accepted (Some inverted_vad) = true
  ∧ (VADDump.render dump_self (os_with_locked "") [inverted_task]
       empty_world).1 = inr tt
  ∧ files (VADDump.render dump_self (os_with_locked "") [inverted_task]
             empty_world).2 !! path_inverted
    = Some (VADDump.extract (get_process_address_space inverted_task)
              inverted_vad)
  ∧ Z.of_nat (length (VADDump.extract
                        (get_process_address_space inverted_task)
                        inverted_vad))
    ≠ get_end inverted_vad - get_start inverted_vad + 1.
Proof. repeat split; by vm_compute. Qed.

(** C1 (amended). For a node with [start <= end + 1], in particular for
    every node with [start <= end], [extract] returns, without failing,
    exactly [end - start + 1] bytes, whatever is resident; a byte of the
    range whose page is not resident is zero; and when the node is accepted
    and its destination can be opened, these bytes are what the file holds
    after the node is dumped. *)
Theorem extract_length_and_zero_fill
    (self : VADDump.t) (os : OS) (task_space : AddressSpace) (name : string)
    (offset : Z) (vad : Vad) (w : World) :
  get_start vad <= get_end vad + 1 ->
  Z.of_nat (length (VADDump.extract task_space vad))
    = get_end vad - get_start vad + 1
  ∧ (∀ a, get_start vad <= a <= get_end vad ->
       (∀ a', a' / PAGE_SIZE = a / PAGE_SIZE -> vtop task_space a' = None) ->
       VADDump.extract task_space vad !! Z.to_nat (a - get_start vad)
       = Some x00)
  ∧ (VADDump.accepted (Some vad) = true ->
     can_open os (VADDump.region self task_space name offset vad).1 = true ->
     files (VADDump.dump_vad self os task_space name offset (Some vad) w).2
       !! (VADDump.region self task_space name offset vad).1
     = Some (VADDump.extract task_space vad)).
Proof.
  intros Hrange. unfold VADDump.extract at 1 2, zread. split; [|split].
  - rewrite zread_chunks_length by lia. lia.
  - intros a Ha Hpage. apply zread_chunks_zero_fill; [lia | lia |].
    intros a' Ha'. apply Hpage. rewrite Ha'. f_equal. lia.
  - intros Hacc Hopen.
    destruct (dump_vad_stored self os task_space name offset vad Hacc Hopen)
      as [out ->].
    simpl. unfold VADDump.store. by rewrite lookup_insert_eq.
Qed.

Lemma extract_length_and_zero_fill_witness :
  Z.of_nat (length (VADDump.extract lsass_space node_A)) = 0x1000
  ∧ VADDump.extract lsass_space node_A !! 0x7ff%nat = Some x00.
Proof.
  destruct (extract_length_and_zero_fill dump_self (os_with_locked "")
              lsass_space "lsass.exe" 0x0a000000 node_A empty_world)
    as (Hlen & Hzero & _).
  - vm_compute. discriminate.
  - split; [exact Hlen|].
    apply (Hzero 0x17ff); [by vm_compute|].
    intros a' Ha'. simpl.
    destruct (Z.eqb_spec a' 0x8a000000) as [->|]; [|done].
    vm_compute in Ha'. discriminate.
Defined.

(** ** Which nodes are dumped *)

Section dump_loop.
Import VADDump.
Variables (self : t) (os : OS) (task_space : AddressSpace) (name : string)
          (offset : Z).

Lemma accepted_iff (vad : Vad) :
  accepted (Some vad) = true ↔ obj_type vad ≠ "_MMVAD".
Proof.
  simpl. destruct (String.eqb_spec (obj_type vad) "_MMVAD"); simpl; naive_solver.
Qed.

Lemma elem_of_regions (vads : list (option Vad)) (kv : string * list byte) :
  kv ∈ regions self task_space name offset vads
  ↔ ∃ vad, Some vad ∈ vads ∧ accepted (Some vad) = true
           ∧ kv = region self task_space name offset vad.
Proof.
  induction vads as [|[vad|] vads IH]; cbn [regions].
  - split; [by intros ?%elem_of_nil|]. intros (? & ?%elem_of_nil & _). done.
  - destruct (accepted (Some vad)) eqn:Hacc.
    + rewrite elem_of_cons, IH. split.
      * intros [->|(v & Hv & Ha & ->)].
        -- exists vad. split; [left|done].
        -- exists v. split; [by right|done].
      * intros (v & [Heq|Hv]%elem_of_cons & Ha & ->).
        -- left. by simplify_eq.
        -- right. by exists v.
    + rewrite IH. split.
      * intros (v & Hv & Ha & ->). exists v. split; [by right|done].
      * intros (v & [Heq|Hv]%elem_of_cons & Ha & ->).
        -- simplify_eq. congruence.
        -- by exists v.
  - rewrite IH. split.
    + intros (v & Hv & Ha & ->). exists v. split; [by right|done].
    + intros (v & [Heq|Hv]%elem_of_cons & Ha & ->); [done|]. by exists v.
Qed.

(** When every destination can be opened the loop stores the regions of the
    accepted entries, in order, and nothing else. *)
Lemma for_each_dump_vad_ok (vads : list (option Vad)) (w : World) :
  (∀ vad, Some vad ∈ vads -> accepted (Some vad) = true ->
     can_open os (region self task_space name offset vad).1 = true) ->
  (for_each vads (dump_vad self os task_space name offset) w).1 = inr tt
  ∧ files (for_each vads (dump_vad self os task_space name offset) w).2
    = foldl store (files w) (regions self task_space name offset vads).
Proof.
  revert w. induction vads as [|vad vads IH]; intros w Hopen; [done|].
  cbn [for_each]. unfold bind.
  assert (∀ w', (for_each vads (dump_vad self os task_space name offset) w').1
                = inr tt
                ∧ files (for_each vads
                           (dump_vad self os task_space name offset) w').2
                  = foldl store (files w')
                          (regions self task_space name offset vads)) as IH'.
  { intros w'. apply IH. intros v Hv. apply Hopen. by right. }
  destruct (accepted vad) eqn:Hacc.
  - destruct vad as [vad|]; [|done].
    destruct (dump_vad_stored self os task_space name offset vad Hacc)
      as [out ->]; [apply Hopen; [left|done]|].
    cbn [regions]. rewrite Hacc. cbn [foldl].
    destruct (IH' (mkWorld (outfd w ++ out)
                     (store (files w)
                        (region self task_space name offset vad)))) as [H1 H2].
    by destruct (for_each vads _ _) as [[e|[]] w2].
  - rewrite dump_vad_rejected by done.
    replace (regions self task_space name offset (vad :: vads))
      with (regions self task_space name offset vads)
      by (destruct vad as [vad|]; cbn [regions]; [by rewrite Hacc|done]).
    destruct (IH' w) as [H1 H2].
    by destruct (for_each vads _ _) as [[e|[]] w2].
Qed.

(** A destination that cannot be opened ends the loop: what comes after it
    in the traversal has no part in the outcome. *)
Lemma for_each_dump_vad_refused (pre post : list (option Vad)) (vad : Vad)
    (w : World) :
  (∀ v, Some v ∈ pre -> accepted (Some v) = true ->
     can_open os (region self task_space name offset v).1 = true) ->
  accepted (Some vad) = true ->
  can_open os (region self task_space name offset vad).1 = false ->
  for_each (pre ++ Some vad :: post) (dump_vad self os task_space name offset) w
  = (inl (IOError (region self task_space name offset vad).1),
     (for_each pre (dump_vad self os task_space name offset) w).2).
Proof.
  intros Hpre Hacc Hopen. revert w Hpre.
  induction pre as [|v pre IH]; intros w Hpre.
  - cbn [app for_each]. unfold bind. by rewrite dump_vad_refused.
  - cbn [app for_each]. unfold bind.
    destruct (for_each_dump_vad_ok [v] w) as [H1 _].
    { intros v' Hv'%list_elem_of_singleton. subst v. apply Hpre. left. }
    cbn [for_each] in H1. unfold bind, ret in H1.
    destruct (dump_vad self os task_space name offset v w) as [[e|[]] w1];
      [done|].
    apply IH. intros v' Hv'. apply Hpre. by right.
Qed.

End dump_loop.

(** C4. An entry of the traversal is passed over by the extractor, with no
    file touched and nothing printed, exactly when it did not dereference or
    its record type is [_MMVAD], the type a bad tag leaves. For every other
    node the extractor opens the node's destination and, unless that fails,
    stores the node's range there. Over a whole traversal whose
    destinations can all be opened, the files stored are the regions of the
    nodes of the other types, and only those. *)
Theorem extractor_skips_bad_type
    (self : VADDump.t) (os : OS) (task_space : AddressSpace) (name : string)
    (offset : Z) (vads : list (option Vad)) (w : World) :
  (∀ vad, VADDump.accepted (Some vad) = false ↔ obj_type vad = "_MMVAD")
  ∧ VADDump.accepted None = false
  ∧ (∀ entry, VADDump.accepted entry = false ->
       VADDump.dump_vad self os task_space name offset entry w = (inr tt, w))
  ∧ (∀ vad, VADDump.accepted (Some vad) = true ->
       (can_open os (VADDump.region self task_space name offset vad).1 = true
        ∧ ∃ out,
            VADDump.dump_vad self os task_space name offset (Some vad) w
            = (inr tt,
               mkWorld (outfd w ++ out)
                 (VADDump.store (files w)
                    (VADDump.region self task_space name offset vad))))
       ∨ (can_open os (VADDump.region self task_space name offset vad).1
          = false
          ∧ VADDump.dump_vad self os task_space name offset (Some vad) w
            = (inl (IOError
                      (VADDump.region self task_space name offset vad).1), w)))
  ∧ ((∀ vad, Some vad ∈ vads -> VADDump.accepted (Some vad) = true ->
        can_open os (VADDump.region self task_space name offset vad).1 = true)
     -> (for_each vads (VADDump.dump_vad self os task_space name offset) w).1
        = inr tt
        ∧ files (for_each vads
                   (VADDump.dump_vad self os task_space name offset) w).2
          = foldl VADDump.store (files w)
              (VADDump.regions self task_space name offset vads))
  ∧ (∀ kv, kv ∈ VADDump.regions self task_space name offset vads
       ↔ ∃ vad, Some vad ∈ vads ∧ obj_type vad ≠ "_MMVAD"
                ∧ kv = VADDump.region self task_space name offset vad).
Proof.
  split; [|split; [done|split; [|split; [|split]]]].
  - intros vad. rewrite <- not_true_iff_false, accepted_iff.
    destruct (decide (obj_type vad = "_MMVAD")); naive_solver.
  - intros entry Hrej. by apply dump_vad_rejected.
  - intros vad Hacc.
    destruct (can_open os (VADDump.region self task_space name offset vad).1)
      eqn:Hopen; [left | right]; (split; [done|]).
    + destruct (dump_vad_stored self os task_space name offset vad Hacc Hopen)
        as [out Hout].
      by exists out.
    + by apply dump_vad_refused.
  - apply for_each_dump_vad_ok.
  - intros kv. rewrite elem_of_regions.
    by setoid_rewrite accepted_iff.
Qed.

Lemma extractor_skips_bad_type_witness :
  VADDump.dump_vad dump_self (os_with_locked "") lsass_space "lsass.exe"
    0x0a000000 (Some bad_tag_vad) empty_world = (inr tt, empty_world)
  ∧ files (for_each [Some node_A; None; Some bad_tag_vad; Some node_B]
             (VADDump.dump_vad dump_self (os_with_locked "") lsass_space
                "lsass.exe" 0x0a000000) empty_world).2
    = foldl VADDump.store ∅
        (VADDump.regions dump_self lsass_space "lsass.exe" 0x0a000000
           [Some node_A; None; Some bad_tag_vad; Some node_B]).
Proof.
  destruct (extractor_skips_bad_type dump_self (os_with_locked "") lsass_space
              "lsass.exe" 0x0a000000
              [Some node_A; None; Some bad_tag_vad; Some node_B] empty_world)
    as (_ & _ & Hskip & _ & Hloop & _).
  split.
  - apply Hskip. reflexivity.
  - apply Hloop. intros vad Hvad _.
    repeat (apply elem_of_cons in Hvad as [Hvad|Hvad];
            [try discriminate; injection Hvad as ->; by vm_compute|]).
    by apply elem_of_nil in Hvad.
Defined.

(** ** A destination that cannot be opened *)

(** C5, as stated, fails: with the destination of the first region locked,
    [render] raises at that region; the second region of the same process,
    whose destination could be opened, is never written. *)
Lemma sibling_region_not_attempted :
  can_open (os_with_locked path_A) path_B = true
  ∧ VADDump.render dump_self (os_with_locked path_A) [lsass] empty_world
    = (inl (IOError path_A),
       mkWorld ["Pid:    700
"; Py.times "*" 72 ++ "
"] ∅)
  ∧ files (VADDump.render dump_self (os_with_locked path_A) [lsass]
             empty_world).2 !! path_B = None.
Proof. by vm_compute. Qed.

(** C5 (amended). When the destination of an accepted node cannot be
    opened, [render] raises [IOError] for that destination: the regions that
    came before it in the traversal stay stored, and neither the rest of the
    traversal nor any later process has a part in the outcome. *)
Theorem open_failure_ends_the_run
    (self : VADDump.t) (os : OS) (task : Task) (later : list Task)
    (offset : Z) (pre post : list (option Vad)) (vad : Vad) (w : World) :
  vtop (get_process_address_space task) (task_obj_offset task) = Some offset ->
  VadRoot_traverse task = (pre ++ Some vad :: post)%list ->
  (∀ v, Some v ∈ pre -> VADDump.accepted (Some v) = true ->
     can_open os (VADDump.region self (get_process_address_space task)
                    (ImageFileName task) offset v).1 = true) ->
  VADDump.accepted (Some vad) = true ->
  can_open os (VADDump.region self (get_process_address_space task)
                 (ImageFileName task) offset vad).1 = false ->
  (VADDump.render self os (task :: later) w).1
    = inl (IOError (VADDump.region self (get_process_address_space task)
                      (ImageFileName task) offset vad).1)
  ∧ files (VADDump.render self os (task :: later) w).2
    = foldl VADDump.store (files w)
        (VADDump.regions self (get_process_address_space task)
           (ImageFileName task) offset pre).
Proof.
  intros Hvtop Htrav Hpre Hacc Hopen.
  unfold VADDump.render. cbn [for_each].
  unfold bind at 1. unfold VADDump.render_task.
  rewrite Hvtop, Htrav. unfold bind, write. cbn [fst snd outfd files].
  rewrite for_each_dump_vad_refused by done. cbn [fst snd].
  split; [done|].
  by destruct (for_each_dump_vad_ok self os (get_process_address_space task)
                 (ImageFileName task) offset pre
                 (mkWorld ((outfd w ++ ["Pid: "
                                        ++ Py.fmt_d 6 (UniqueProcessId task)
                                        ++ "
"]) ++ [Py.times "*" 72 ++ "
"]) (files w)) Hpre) as [_ ->].
Qed.

Lemma open_failure_ends_the_run_witness :
  (VADDump.render dump_self (os_with_locked path_B) [lsass] empty_world).1
    = inl (IOError path_B)
  ∧ files (VADDump.render dump_self (os_with_locked path_B) [lsass]
             empty_world).2
    = foldl VADDump.store ∅
        (VADDump.regions dump_self lsass_space "lsass.exe" 0x0a000000
           [Some node_A]).
Proof.
  apply (open_failure_ends_the_run dump_self (os_with_locked path_B) lsass []
           0x0a000000 [Some node_A] [] node_B empty_world).
  - reflexivity.
  - reflexivity.
  - intros v Hv%list_elem_of_singleton _. injection Hv as ->. by vm_compute.
  - reflexivity.
  - by vm_compute.
Defined.

(** ** Two runs over the same snapshot *)

Section reproducible.
Import VADDump.
Variables (self : t) (os : OS).

Lemma writes_only_dump_vad (P : string * list byte -> Prop)
    (task_space : AddressSpace) (name : string) (offset : Z)
    (entry : option Vad) :
  (∀ vad, entry = Some vad -> accepted (Some vad) = true ->
     P (region self task_space name offset vad)) ->
  writes_only P (dump_vad self os task_space name offset entry).
Proof.
  intros HP. destruct (accepted entry) eqn:Hacc.
  - destruct entry as [vad|]; [|done].
    destruct (can_open os (region self task_space name offset vad).1)
      eqn:Hopen.
    + destruct (dump_vad_stored self os task_space name offset vad Hacc Hopen)
        as [out Hout].
      exists (inr tt), out, [region self task_space name offset vad].
      split; [|done]. apply Forall_singleton. by apply HP.
    + exists (inl (IOError (region self task_space name offset vad).1)), [], [].
      split; [done|]. intros w. rewrite dump_vad_refused by done.
      simpl. by rewrite world_eta.
  - exists (inr tt), [], []. split; [done|]. intros w.
    rewrite dump_vad_rejected by done. simpl. by rewrite world_eta.
Qed.

Lemma writes_only_render_task (tasks : list Task) (task : Task) :
  task ∈ tasks ->
  writes_only (from_snapshot self tasks) (render_task self os task).
Proof.
  intros Htask. unfold render_task.
  apply writes_only_seq; [apply writes_only_write|].
  destruct (vtop (get_process_address_space task) (task_obj_offset task))
    as [offset|] eqn:Hvtop; [|apply writes_only_write].
  apply writes_only_seq; [apply writes_only_write|].
  apply writes_only_for_each. intros entry Hentry.
  apply writes_only_dump_vad. intros vad -> Hacc.
  by exists task, offset, vad.
Qed.

Lemma writes_only_render (tasks : list Task) :
  writes_only (from_snapshot self tasks) (render self os tasks).
Proof.
  apply writes_only_for_each. intros task Htask.
  by apply writes_only_render_task.
Qed.

End reproducible.

(** C8. What a run does is fixed by the configuration and the snapshot: the
    outcome, the text printed and the list of files stored, names and
    contents, are the same from every starting state of the dump directory.
    Every file stored is the region of an accepted node of one of the
    processes, so its name is made of the dump directory, the image name,
    the offset of the control block and the bounds of the node, and nothing
    else. A second run over the directory left by a first one ends the same
    way and leaves every file as it is. *)
Theorem dump_is_reproducible
    (os : OS) (session : option Session) (dump_dir : option string)
    (verbose : bool) (tasks : list Task) :
  ∃ (r : exn + unit) (out : list string) (kvs : list (string * list byte)),
    (∀ w, VADDump.run os session dump_dir verbose tasks w
          = (r, mkWorld (outfd w ++ out)
                        (foldl VADDump.store (files w) kvs)))
    ∧ (∀ self, VADDump.init os session dump_dir verbose = inr self ->
         Forall (VADDump.from_snapshot self tasks) kvs)
    ∧ (∀ w, (VADDump.run os session dump_dir verbose tasks
               (VADDump.run os session dump_dir verbose tasks w).2).1
            = (VADDump.run os session dump_dir verbose tasks w).1
            ∧ files (VADDump.run os session dump_dir verbose tasks
                       (VADDump.run os session dump_dir verbose tasks w).2).2
              = files (VADDump.run os session dump_dir verbose tasks w).2)
    ∧ (∀ self space space' name offset vad vad',
         get_start vad = get_start vad' -> get_end vad = get_end vad' ->
         (VADDump.region self space name offset vad).1
         = (VADDump.region self space' name offset vad').1).
Proof.
  assert (VADDump.writes_only
            (fun kv => ∀ self,
               VADDump.init os session dump_dir verbose = inr self ->
               VADDump.from_snapshot self tasks kv)
            (VADDump.run os session dump_dir verbose tasks))
    as (r & out & kvs & HP & Hrun).
  { unfold VADDump.run.
    destruct (VADDump.init os session dump_dir verbose) as [e|self].
    - apply writes_only_raise.
    - destruct (writes_only_render self os tasks)
        as (r & out & kvs & HP & Hrun).
      exists r, out, kvs. split; [|done].
      eapply Forall_impl; [exact HP|]. intros kv Hkv self' [= <-]. done. }
  exists r, out, kvs. split; [done|]. split; [|split].
  - intros self Hinit. eapply Forall_impl; [exact HP|]. naive_solver.
  - intros w. rewrite !Hrun. simpl. by rewrite foldl_store_idemp.
  - intros self space space' name offset vad vad' Hs He.
    unfold VADDump.region. simpl. by rewrite Hs, He.
Qed.

Lemma dump_is_reproducible_witness :
  files (VADDump.run (os_with_locked "") None (Some "/tmp/dump") false [lsass]
           (VADDump.run (os_with_locked "") None (Some "/tmp/dump") false
              [lsass] empty_world).2).2
  = files (VADDump.run (os_with_locked "") None (Some "/tmp/dump") false
             [lsass] empty_world).2.
Proof.
  destruct (dump_is_reproducible (os_with_locked "") None (Some "/tmp/dump")
              false [lsass]) as (r & out & kvs & _ & _ & Hagain & _).
  apply Hagain.
Defined.

(** ** Configuration *)

(** C9, as stated, fails: with a dump directory that exists, construction
    succeeds, and the run is halted all the same, at the first destination
    that cannot be opened. *)
Lemma valid_configuration_run_halts :
  VADDump.init (os_with_locked path_A) None (Some "/tmp/dump") false
    = inr dump_self
  ∧ VADDump.run (os_with_locked path_A) None (Some "/tmp/dump") false
      [lsass; lsass] empty_world
    = (inl (IOError path_A),
       mkWorld ["Pid:    700
"; Py.times "*" 72 ++ "
"] ∅).
Proof. by vm_compute. Qed.

(** C9 (amended). Construction fails when no dump directory is given by the
    argument or the session, and when the one given is not an existing
    directory; a failed construction ends the run before anything is
    traversed, printed or written. With a dump directory that exists,
    construction succeeds. *)
Theorem configuration_checked_first
    (os : OS) (session : option Session) (dump_dir : option string)
    (verbose : bool) (tasks : list Task) (w : World) :
  (VADDump.effective_dump_dir session dump_dir = None ->
     VADDump.init os session dump_dir verbose
     = inl (PluginError "Dump directory not specified."))
  ∧ (∀ dir, VADDump.effective_dump_dir session dump_dir = Some dir ->
       isdir os dir = false ->
       VADDump.init os session dump_dir verbose = inl (NameError "debug"))
  ∧ (∀ dir, VADDump.effective_dump_dir session dump_dir = Some dir ->
       isdir os dir = true ->
       VADDump.init os session dump_dir verbose
       = inr {| VADDump.dump_dir := dir; VADDump.verbose := verbose |})
  ∧ (∀ e, VADDump.init os session dump_dir verbose = inl e ->
       VADDump.run os session dump_dir verbose tasks w = (inl e, w)).
Proof.
  unfold VADDump.run, VADDump.init.
  destruct (VADDump.effective_dump_dir session dump_dir) as [dir|];
    [destruct (isdir os dir) eqn:Hdir|]; simpl;
    repeat split; intros; simplify_eq/=; try done; congruence.
Qed.

Lemma configuration_checked_first_witness :
  VADDump.init (os_with_locked "") (Some {| session_dump_dir := None |})
    (Some "") false
  = inl (PluginError "Dump directory not specified.")
  ∧ VADDump.run (os_with_locked "") None (Some "/nowhere") false [lsass]
      empty_world
    = (inl (NameError "debug"), empty_world)
  ∧ VADDump.init (os_with_locked "") None (Some "/tmp/dump") true
    = inr {| VADDump.dump_dir := "/tmp/dump"; VADDump.verbose := true |}.
Proof.
  split; [|split].
  - destruct (configuration_checked_first (os_with_locked "")
                (Some {| session_dump_dir := None |}) (Some "") false []
                empty_world) as (H & _).
    apply H. reflexivity.
  - destruct (configuration_checked_first (os_with_locked "") None
                (Some "/nowhere") false [lsass] empty_world)
      as (_ & Hdir & _ & Hrun).
    apply Hrun. apply (Hdir "/nowhere"); reflexivity.
  - destruct (configuration_checked_first (os_with_locked "") None
                (Some "/tmp/dump") true [] empty_world) as (_ & _ & H & _).
    apply (H "/tmp/dump"); reflexivity.
Defined.

(** * Further properties of the plugins *)

(** ** Computations that only print *)

Lemma prints_ret : prints (ret tt) (inr tt) [].
Proof. intros w. unfold ret. by rewrite world_eta. Qed.

Lemma prints_raise (e : exn) : prints (raise e) (inl e) [].
Proof. intros w. unfold raise. by rewrite world_eta. Qed.

Lemma prints_write (s : string) : prints (write s) (inr tt) [s].
Proof. by intros w. Qed.

Lemma prints_seq (m k : M unit) (r : exn + unit) (o1 o2 : list string) :
  prints m (inr tt) o1 -> prints k r o2 -> prints (m ;;; k) r (o1 ++ o2).
Proof.
  intros Hm Hk w. unfold bind. rewrite Hm, Hk. simpl. by rewrite app_assoc.
Qed.

Lemma prints_seq_raised (m k : M unit) (e : exn) (o1 : list string) :
  prints m (inl e) o1 -> prints (m ;;; k) (inl e) o1.
Proof. intros Hm w. unfold bind. by rewrite Hm. Qed.

Lemma prints_except (m : M unit) (r : exn + unit) (out : list string) :
  prints m r out -> (r = inr tt ∨ ∃ a, r = inl (AttributeError a)) ->
  prints (except_AttributeError m) (inr tt) out.
Proof.
  intros Hm Hr w. unfold except_AttributeError. rewrite Hm.
  by destruct Hr as [->|[a ->]].
Qed.

(** ** [VADInfo.render] *)

Lemma write_vad_short_prints (vad : Vad) :
  ∃ out, prints (VADInfo.write_vad_short vad) (inr tt) out.
Proof.
  unfold VADInfo.write_vad_short.
  destruct (VadType (VadFlags vad)); eexists;
    do 3 (eapply prints_seq; [apply prints_write|]);
    [apply prints_write | apply prints_ret].
Qed.

Lemma write_control_area_prints (ca : CONTROL_AREA) :
  ∃ out, prints (VADInfo.write_control_area ca) (inr tt) out.
Proof.
  unfold VADInfo.write_control_area.
  destruct (FilePointer ca) as [fo|]; [destruct (negb _)|]; eexists;
    do 6 (eapply prints_seq; [apply prints_write|]);
    (apply prints_write || apply prints_ret).
Qed.

Lemma write_vad_control_prints (vad : Vad) :
  ∃ r out, prints (VADInfo.write_vad_control vad) r out
           ∧ (r = inr tt ∨ ∃ a, r = inl (AttributeError a)).
Proof.
  unfold VADInfo.write_vad_control.
  destruct (PrivateMemory (VadFlags vad) =? 1).
  { exists (inr tt), []. split; [apply prints_ret | by left]. }
  destruct (ControlArea vad) as [p|].
  - destruct (resolve p) as [ca|] eqn:Hres.
    + destruct (write_control_area_prints ca) as [out Hout].
      exists (inr tt), out. split; [|by left].
      intros w. unfold bind, getattr, ret. rewrite Hres. apply Hout.
    + exists (inr tt), []. split; [|by left].
      intros w. unfold bind, getattr, ret. rewrite Hres. by rewrite world_eta.
  - exists (inl (AttributeError "ControlArea")), []. split; [|by eauto].
    intros w. unfold bind, getattr, raise. by rewrite world_eta.
Qed.

Lemma write_vad_ext_prints (vad : Vad) :
  ∃ r out, prints (VADInfo.write_vad_ext vad) r out
           ∧ (r = inr tt ∨ ∃ a, r = inl (AttributeError a)).
Proof.
  unfold VADInfo.write_vad_ext.
  destruct (negb _).
  2: { exists (inr tt), []. split; [apply prints_ret | by left]. }
  destruct (FirstPrototypePte vad) as [first|].
  2: { eexists _, []. split; [|right; by eexists].
       intros w. unfold bind, getattr, raise. by rewrite world_eta. }
  destruct (LastContiguousPte vad) as [last|].
  2: { eexists _, []. split; [|right; by eexists].
       intros w. unfold bind, getattr, raise, ret. by rewrite world_eta. }
  destruct (VadFlags2_str vad) as [flags2|].
  - eexists (inr tt), [_; _]. split; [|by left].
    intros w. unfold bind, getattr, ret, write. simpl.
    by rewrite <- app_assoc.
  - eexists _, [_]. split; [|right; by eexists].
    intros w. unfold bind, getattr, ret, raise, write. simpl. done.
Qed.

Lemma render_vad_prints (entry : option Vad) :
  ∃ out, prints (VADInfo.render_vad entry) (inr tt) (out ++ ["
"]).
Proof.
  unfold VADInfo.render_vad.
  assert (∃ out, prints
            match entry with
            | Some vad =>
                if negb (obj_offset vad =? 0)
                then except_AttributeError (VADInfo.write_vad_short vad) ;;;
                     except_AttributeError (VADInfo.write_vad_control vad) ;;;
                     except_AttributeError (VADInfo.write_vad_ext vad)
                else ret tt
            | None => ret tt
            end (inr tt) out) as [out Hout].
  { destruct entry as [vad|]; [|eexists; apply prints_ret].
    destruct (negb _); [|eexists; apply prints_ret].
    destruct (write_vad_short_prints vad) as [o1 H1].
    destruct (write_vad_control_prints vad) as (r2 & o2 & H2 & Hr2).
    destruct (write_vad_ext_prints vad) as (r3 & o3 & H3 & Hr3).
    eexists. eapply prints_seq; [|eapply prints_seq].
    - eapply prints_except; [exact H1 | by left].
    - eapply prints_except; [exact H2 | exact Hr2].
    - eapply prints_except; [exact H3 | exact Hr3]. }
  exists out. eapply prints_seq; [exact Hout | apply prints_write].
Qed.

(** X1. [VADInfo.render] never raises and never touches a file, whatever the
    traversal yields: a field that a record lacks ends only the section that
    reads it. It prints the two header lines and, for every entry of the
    traversal, dereferenced or not, at least the closing blank line. *)
Theorem vadinfo_render_never_raises (pid : Z) (vads : list (option Vad)) :
  ∃ out, prints (VADInfo.render_task pid vads) (inr tt) out
         ∧ (2 + length vads <= length out)%nat.
Proof.
  unfold VADInfo.render_task.
  assert (∃ out, prints (for_each vads VADInfo.render_vad) (inr tt) out
                 ∧ (length vads <= length out)%nat) as (out & Hout & Hlen).
  { induction vads as [|entry vads (out & Hout & Hlen)]; simpl.
    - exists []. split; [apply prints_ret | done].
    - destruct (render_vad_prints entry) as [o Ho].
      eexists. split; [eapply prints_seq; [exact Ho | exact Hout]|].
      rewrite !length_app. simpl. lia. }
  eexists. split.
  - do 2 (eapply prints_seq; [apply prints_write|]). exact Hout.
  - simpl. lia.
Qed.

(** X2. For a node that dereferenced to a record at a non-zero offset, the
    lines of the short section come first in what [VADInfo.render] prints
    for it, whatever the control area and extended sections do, and the
    blank line comes last. *)
Theorem vadinfo_short_section_first (vad : Vad) :
  obj_offset vad ≠ 0 ->
  ∃ rest, ∀ w,
    VADInfo.render_vad (Some vad) w
    = (inr tt,
       mkWorld (outfd (VADInfo.write_vad_short vad w).2 ++ rest ++ ["
"]) (files w)).
Proof.
  intros Hoff. unfold VADInfo.render_vad.
  rewrite (proj2 (Z.eqb_neq _ _) Hoff). simpl negb. cbv iota.
  destruct (write_vad_short_prints vad) as [o1 H1].
  destruct (write_vad_control_prints vad) as (r2 & o2 & H2 & Hr2).
  destruct (write_vad_ext_prints vad) as (r3 & o3 & H3 & Hr3).
  exists (o2 ++ o3)%list. intros w. rewrite H1. simpl.
  assert (prints
            ((except_AttributeError (VADInfo.write_vad_short vad) ;;;
              except_AttributeError (VADInfo.write_vad_control vad) ;;;
              except_AttributeError (VADInfo.write_vad_ext vad)) ;;;
             write "
") (inr tt) ((o1 ++ o2 ++ o3) ++ ["
"])) as Hall.
  { eapply prints_seq; [|apply prints_write].
    eapply prints_seq; [|eapply prints_seq].
    - eapply prints_except; [exact H1 | by left].
    - eapply prints_except; [exact H2 | exact Hr2].
    - eapply prints_except; [exact H3 | exact Hr3]. }
  rewrite Hall. by rewrite <- !app_assoc.
Qed.

Lemma vadinfo_short_section_first_witness :
  ∃ rest, ∀ w,
    VADInfo.render_vad (Some node_A) w
    = (inr tt,
       mkWorld (outfd (VADInfo.write_vad_short node_A w).2 ++ rest ++ ["
"]) (files w)).
Proof. apply vadinfo_short_section_first. by vm_compute. Defined.

(** ** Loops *)

Lemma for_each_app {A} (xs ys : list A) (body : A -> M unit) (w : World) :
  for_each (xs ++ ys) body w = (for_each xs body ;;; for_each ys body) w.
Proof.
  revert w. induction xs as [|x xs IH]; intros w; simpl; [done|].
  unfold bind in *. destruct (body x w) as [[e|[]] w1]; [done|]. apply IH.
Qed.

(** A loop raises only what one of its turns raises. *)
Lemma for_each_raises {A} (xs : list A) (body : A -> M unit) (w w' : World)
    (e : exn) :
  for_each xs body w = (inl e, w') ->
  ∃ x w0, x ∈ xs ∧ body x w0 = (inl e, w').
Proof.
  revert w. induction xs as [|x xs IH]; intros w; simpl; [done|].
  unfold bind. destruct (body x w) as [[e1|[]] w1] eqn:Hbody.
  - intros [= -> ->]. exists x, w. split; [left | done].
  - intros (y & w0 & Hy & Hw0)%IH. exists y, w0. split; [by right | done].
Qed.

(** Two loops over the same list agree on outcome and files when each of
    their turns does. *)
Lemma for_each_same_outcome {A} (xs : list A) (body1 body2 : A -> M unit)
    (w1 w2 : World) :
  (∀ x v1 v2, x ∈ xs -> files v1 = files v2 ->
     same_outcome (body1 x v1) (body2 x v2)) ->
  files w1 = files w2 ->
  same_outcome (for_each xs body1 w1) (for_each xs body2 w2).
Proof.
  revert w1 w2. induction xs as [|x xs IH]; intros w1 w2 Hbody Hw; simpl.
  - by split.
  - unfold bind.
    destruct (Hbody x w1 w2 ltac:(left) Hw) as [Hr Hf].
    destruct (body1 x w1) as [[e1|[]] v1], (body2 x w2) as [[e2|[]] v2];
      simpl in *; try done.
    apply IH; [|done]. intros y u1 u2 Hy. apply Hbody. by right.
Qed.

(** ** More on [VADDump.render] *)

Section more_on_render.
Import VADDump.

Lemma region_same_dir (self1 self2 : t) (task_space : AddressSpace)
    (name : string) (offset : Z) (vad : Vad) :
  dump_dir self1 = dump_dir self2 ->
  region self1 task_space name offset vad
  = region self2 task_space name offset vad.
Proof. intros Hdir. unfold region, dump_path. by rewrite Hdir. Qed.

Lemma dump_vad_same_outcome (self1 self2 : t) (os : OS)
    (task_space : AddressSpace) (name : string) (offset : Z)
    (entry : option Vad) (w1 w2 : World) :
  dump_dir self1 = dump_dir self2 -> files w1 = files w2 ->
  same_outcome (dump_vad self1 os task_space name offset entry w1)
               (dump_vad self2 os task_space name offset entry w2).
Proof.
  intros Hdir Hw. destruct (accepted entry) eqn:Hacc.
  - destruct entry as [vad|]; [|done].
    pose proof (region_same_dir self1 self2 task_space name offset vad Hdir)
      as Hreg.
    destruct (can_open os (region self1 task_space name offset vad).1)
      eqn:Hopen.
    + destruct (dump_vad_stored self1 os task_space name offset vad Hacc Hopen)
        as [o1 ->].
      rewrite Hreg in Hopen.
      destruct (dump_vad_stored self2 os task_space name offset vad Hacc Hopen)
        as [o2 ->].
      split; cbn [fst snd files]; [done|]. by rewrite Hw, Hreg.
    + rewrite (dump_vad_refused self1) by done.
      rewrite Hreg in Hopen. rewrite (dump_vad_refused self2) by done.
      split; cbn [fst snd]; [by rewrite Hreg | done].
  - rewrite !dump_vad_rejected by done. by split.
Qed.

Lemma render_task_same_outcome (self1 self2 : t) (os : OS) (task : Task)
    (w1 w2 : World) :
  dump_dir self1 = dump_dir self2 -> files w1 = files w2 ->
  same_outcome (render_task self1 os task w1) (render_task self2 os task w2).
Proof.
  intros Hdir Hw. unfold render_task, bind, write.
  destruct (vtop (get_process_address_space task) (task_obj_offset task))
    as [offset|]; cbn [fst snd outfd files]; [|by split].
  apply for_each_same_outcome; [|done].
  intros entry v1 v2 _ Hv. by apply dump_vad_same_outcome.
Qed.

Lemma render_same_outcome (self1 self2 : t) (os : OS) (tasks : list Task)
    (w1 w2 : World) :
  dump_dir self1 = dump_dir self2 -> files w1 = files w2 ->
  same_outcome (render self1 os tasks w1) (render self2 os tasks w2).
Proof.
  intros Hdir Hw. apply for_each_same_outcome; [|done].
  intros task v1 v2 _ Hv. by apply render_task_same_outcome.
Qed.

Lemma render_task_no_address_space (self : t) (os : OS) (task : Task)
    (w : World) :
  has_address_space task = false ->
  render_task self os task w
  = (inr tt,
     mkWorld (outfd w ++ ["Pid: " ++ Py.fmt_d 6 (UniqueProcessId task) ++ "
"; "Process does not have a valid address space.
"]) (files w)).
Proof.
  unfold has_address_space, render_task, bind, write.
  intros Hno%bool_decide_eq_false.
  destruct (vtop (get_process_address_space task) (task_obj_offset task)).
  - destruct Hno. by eexists.
  - cbn [fst snd outfd files]. by rewrite <- app_assoc.
Qed.

End more_on_render.

(** X3. A process whose control block does not resolve in its own address
    space is reported and passed over: it changes neither the outcome of
    the run nor any file, and the processes after it are still dumped. *)
Theorem process_without_address_space_is_skipped
    (self : VADDump.t) (os : OS) (pre post : list Task) (task : Task)
    (w : World) :
  has_address_space task = false ->
  VADDump.render_task self os task w
  = (inr tt,
     mkWorld (outfd w ++ ["Pid: " ++ Py.fmt_d 6 (UniqueProcessId task) ++ "
"; "Process does not have a valid address space.
"]) (files w))
  ∧ same_outcome (VADDump.render self os (pre ++ task :: post) w)
                 (VADDump.render self os (pre ++ post) w).
Proof.
  intros Hno. split; [by apply render_task_no_address_space|].
  unfold VADDump.render. rewrite !for_each_app. unfold bind.
  destruct (for_each pre (VADDump.render_task self os) w) as [[e|[]] w1];
    [by split|].
  cbn [for_each]. unfold bind.
  rewrite render_task_no_address_space by done.
  by apply (render_same_outcome self self).
Qed.

Lemma process_without_address_space_is_skipped_witness :
  same_outcome
    (VADDump.render dump_self (os_with_locked "")
       [lsass; {| UniqueProcessId := 4; task_obj_offset := 0;
                  ImageFileName := "System";
                  get_process_address_space := empty_space;
                  VadRoot_traverse := [Some node_C] |}; lsass] empty_world)
    (VADDump.render dump_self (os_with_locked "") [lsass; lsass] empty_world).
Proof.
  apply (process_without_address_space_is_skipped dump_self
           (os_with_locked "") [lsass] [lsass]).
  reflexivity.
Defined.

(** X4. The [verbose] switch changes only the text printed: with it on or
    off a run ends the same way and leaves the same files. *)
Theorem verbose_changes_only_the_text
    (os : OS) (session : option Session) (dump_dir : option string)
    (tasks : list Task) (w : World) :
  same_outcome (VADDump.run os session dump_dir true tasks w)
               (VADDump.run os session dump_dir false tasks w).
Proof.
  unfold VADDump.run, VADDump.init.
  destruct (VADDump.effective_dump_dir session dump_dir) as [dir|];
    [|by split].
  destruct (negb (isdir os dir)); [by split|].
  by apply render_same_outcome.
Qed.

(** ** Files that a run leaves alone *)

Lemma foldl_store_lookup_other (fs : gmap string (list byte))
    (kvs : list (string * list byte)) (path : string) :
  Forall (fun kv => kv.1 ≠ path) kvs ->
  foldl VADDump.store fs kvs !! path = fs !! path.
Proof.
  revert fs. induction kvs as [|kv kvs IH]; intros fs Hkvs; simpl; [done|].
  apply Forall_cons in Hkvs as [Hkv Hkvs].
  rewrite IH by done. unfold VADDump.store. by rewrite lookup_insert_ne.
Qed.

Lemma foldl_store_is_Some (fs : gmap string (list byte))
    (kvs : list (string * list byte)) (path : string) :
  is_Some (fs !! path) -> is_Some (foldl VADDump.store fs kvs !! path).
Proof.
  revert fs. induction kvs as [|kv kvs IH]; intros fs Hfs; simpl; [done|].
  apply IH. unfold VADDump.store.
  destruct (decide (kv.1 = path)) as [<-|Hne].
  - rewrite lookup_insert_eq. by eexists.
  - by rewrite lookup_insert_ne.
Qed.

(** X6. [VADDump.render] never removes a file, and the only files whose
    content it can change are those named after an accepted node of a
    process whose control block resolves; every other file is read back as
    it was, whether the run ends normally or with an exception. *)
Theorem render_leaves_other_files_alone
    (self : VADDump.t) (os : OS) (tasks : list Task) (w : World)
    (path : string) :
  (is_Some (files w !! path) ->
   is_Some (files (VADDump.render self os tasks w).2 !! path))
  ∧ ((∀ kv, VADDump.from_snapshot self tasks kv -> kv.1 ≠ path) ->
     files (VADDump.render self os tasks w).2 !! path = files w !! path).
Proof.
  destruct (writes_only_render self os tasks) as (r & out & kvs & HP & Hrun).
  rewrite Hrun. cbn [snd files]. split.
  - apply foldl_store_is_Some.
  - intros Hother. apply foldl_store_lookup_other.
    eapply Forall_impl; [exact HP|]. done.
Qed.

Lemma render_leaves_other_files_alone_witness :
  files (VADDump.render dump_self (os_with_locked "") [lsass]
           (mkWorld [] {[ "/tmp/dump/notes.txt" := [x41] ]})).2
    !! "/tmp/dump/notes.txt"
  = Some [x41].
Proof.
  destruct (render_leaves_other_files_alone dump_self (os_with_locked "")
              [lsass] (mkWorld [] {[ "/tmp/dump/notes.txt" := [x41] ]})
              "/tmp/dump/notes.txt") as [_ Hsame].
  rewrite Hsame; [reflexivity|].
  intros kv (task & offset & vad & Htask & Hoff & Hvad & _ & ->).
  apply list_elem_of_singleton in Htask as ->.
  injection Hoff as <-.
  simpl in Hvad.
  repeat (apply elem_of_cons in Hvad as [Hvad|Hvad];
          [injection Hvad as ->; by vm_compute|]).
  by apply elem_of_nil in Hvad.
Defined.

(** ** Levels on whole traversals *)

Section more_on_levels.
Import VADTree.

Lemma foldl_visit_skips_failed (st : gmap Z Z * list (Vad * Z))
    (vads : list (option Vad)) :
  foldl visit st vads = foldl visit st (Some <$> omap id vads).
Proof.
  revert st. induction vads as [|[v|] vads IH]; intros st; simpl; [done|..].
  - apply IH.
  - apply IH.
Qed.

Lemma walk_levels_bounds (vads : list (option Vad)) :
  (∀ k d, (walk_levels vads).1 !! k = Some d ->
     0 <= d < Z.of_nat (length (rows vads)))
  ∧ (∀ i v d, rows vads !! i = Some (v, d) -> 0 <= d <= Z.of_nat i).
Proof.
  unfold rows, walk_levels.
  induction vads as [|entry vads [IHl IHr]] using rev_ind.
  - split; intros *; simpl; [by rewrite lookup_empty | done].
  - rewrite foldl_app. cbn [foldl].
    destruct entry as [vad|]; [|by split].
    set (st := foldl visit (∅, []) vads) in *.
    assert (0 <= Py.get st.1 (Parent vad) (-1) + 1
            <= Z.of_nat (length st.2)) as Hnew.
    { unfold Py.get. destruct (st.1 !! Parent vad) as [d|] eqn:Hd; simpl.
      - apply IHl in Hd. lia.
      - lia. }
    cbn [visit fst snd]. split.
    + intros k d. rewrite length_app. simpl.
      destruct (decide (obj_offset vad = k)) as [<-|Hne].
      * rewrite lookup_insert_eq. intros [= <-]. lia.
      * rewrite lookup_insert_ne by done. intros Hd%IHl. lia.
    + intros i v d [Hold|[Hi Hnew']]%lookup_app_Some.
      * by apply IHr in Hold.
      * apply list_lookup_singleton_Some in Hnew' as [Hi' [= <- <-]]. lia.
Qed.

Lemma foldl_visit_tree (t : vad_tree) (parent d : Z) (levels : gmap Z Z) :
  parents_agree parent t ->
  Py.get levels parent (-1) + 1 = d ->
  (foldl visit (levels, []) (Some <$> preorder t)).2 = preorder_depth d t
  ∧ ∀ k, k ∉ (obj_offset <$> preorder t) ->
         (foldl visit (levels, []) (Some <$> preorder t)).1 !! k
         = levels !! k.
Proof.
  revert parent d levels.
  induction t as [|vad l IHl r IHr]; intros parent d levels Hwf Hd; [done|].
  destruct Hwf as (Hparent & Hl & Hr & Hfresh).
  cbn [preorder preorder_depth]. rewrite fmap_cons, fmap_app.
  cbn [foldl visit fst snd]. rewrite foldl_app.
  rewrite Hparent, Hd.
  set (levels1 := <[obj_offset vad := d]> levels).
  destruct (IHl (obj_offset vad) (d + 1) levels1 Hl) as [Hrows_l Hlev_l].
  { unfold Py.get, levels1. by rewrite lookup_insert_eq. }
  rewrite (foldl_visit_rows_from (levels1, ([] ++ [(vad, d)])%list)).
  cbn [fst snd app].
  set (st_l := foldl visit (levels1, []) (Some <$> preorder l)) in *.
  rewrite (foldl_visit_rows_from (st_l.1, _)). cbn [fst snd].
  destruct (IHr (obj_offset vad) (d + 1) st_l.1 Hr) as [Hrows_r Hlev_r].
  { unfold Py.get. rewrite Hlev_l by done.
    unfold levels1. by rewrite lookup_insert_eq. }
  split.
  - by rewrite Hrows_l, Hrows_r.
  - intros k Hk. rewrite fmap_cons, fmap_app in Hk.
    apply not_elem_of_cons in Hk as [Hne Hk].
    apply not_elem_of_app in Hk as [Hkl Hkr].
    rewrite Hlev_r, Hlev_l by done.
    unfold levels1. by rewrite lookup_insert_ne.
Qed.

End more_on_levels.

(** X7. The level printed for a node is never negative and never larger
    than the number of rows printed before it, on every traversal, corrupt
    or not; so the indentation [" " * level] is always a real repetition. *)
Theorem level_within_bounds (vads : list (option Vad)) (i : nat) (v : Vad)
    (d : Z) :
  VADTree.rows vads !! i = Some (v, d) -> 0 <= d <= Z.of_nat i.
Proof. apply walk_levels_bounds. Qed.

Lemma level_within_bounds_witness : 0 <= 2 <= Z.of_nat 2.
Proof.
  apply (level_within_bounds [Some node_A; Some node_B; Some node_C] 2 node_C).
  reflexivity.
Defined.

(** X8. Entries of the traversal that did not dereference leave no trace in
    the tree display: the rows and the levels are those of the traversal
    with these entries taken out. *)
Theorem failed_entries_leave_no_trace (vads : list (option Vad)) :
  VADTree.walk_levels vads = VADTree.walk_levels (Some <$> omap id vads).
Proof. apply foldl_visit_skips_failed. Qed.

(** X9. On a tree whose nodes name the node above them as parent, with no
    node of a left subtree sharing the offset of the node the subtree hangs
    from, walked in pre-order, the level printed for every node is its
    depth in the tree, the root at 0. *)
Theorem level_is_depth_in_tree (t : vad_tree) (parent : Z) :
  parents_agree parent t ->
  VADTree.rows (Some <$> preorder t) = preorder_depth 0 t.
Proof.
  intros Hwf. unfold VADTree.rows, VADTree.walk_levels.
  by destruct (foldl_visit_tree t parent 0 ∅ Hwf).
Qed.

Lemma level_is_depth_in_tree_witness :
  VADTree.rows (Some <$> preorder three_node_tree)
  = [(node_A, 0); (node_B, 1); (node_C, 2)].
Proof.
  apply (level_is_depth_in_tree three_node_tree 0).
  unfold three_node_tree. cbn [parents_agree preorder].
  repeat split; try reflexivity;
    (intros H; simpl in H;
     repeat (apply elem_of_cons in H as [H|H]; [by vm_compute in H|]);
     by apply elem_of_nil in H).
Defined.

(** ** Names of the dump files *)

Lemma append_inv_head (s a b : string) : s ++ a = s ++ b -> a = b.
Proof. induction s as [|c s IH]; simpl; [done|]. intros [= H]. by apply IH. Qed.

Lemma all_hex_app (a b : string) :
  all_hex a = true -> all_hex b = true -> all_hex (a ++ b) = true.
Proof.
  induction a as [|c a IH]; simpl; [done|].
  destruct (HexString.ascii_to_digit c); [apply IH | done].
Qed.

Lemma all_hex_zeros (n : Z) : all_hex (Py.times "0" n) = true.
Proof.
  unfold Py.times. induction (Z.to_nat n) as [|k IH]; simpl; [done|].
  apply IH.
Qed.

Fixpoint all_hex_of_pos (p : positive) (rest : string) {struct p} :
  all_hex rest = true -> all_hex (HexString.Raw.of_pos p rest) = true.
Proof.
  intros Hrest.
  do 4 try destruct p as [p|p|]; cbn [HexString.Raw.of_pos]; try exact Hrest;
    try (apply all_hex_of_pos; cbn; exact Hrest); cbn; exact Hrest.
Qed.

Lemma to_N_zeros (k : nat) (s : string) :
  HexString.Raw.to_N (string_of_list_ascii (repeat "0"%char k) ++ s) 0
  = HexString.Raw.to_N s 0.
Proof. induction k as [|k IH]; simpl; [done|]. apply IH. Qed.

Section fmt_0x.
Variable width : Z.

Lemma fmt_0x_all_hex (n : Z) : 0 <= n -> all_hex (Py.fmt_0x width n) = true.
Proof.
  intros Hn. unfold Py.fmt_0x, Py.sign.
  rewrite (proj2 (Z.ltb_ge n 0)) by done.
  apply all_hex_app; [done|].
  apply all_hex_app; [apply all_hex_zeros|].
  destruct n as [|p|p]; [done| |lia]. by apply all_hex_of_pos.
Qed.

(** The text reads back as the number. *)
Lemma fmt_0x_to_N (n : Z) :
  0 <= n -> HexString.Raw.to_N (Py.fmt_0x width n) 0 = Z.to_N n.
Proof.
  intros Hn. unfold Py.fmt_0x, Py.sign.
  rewrite (proj2 (Z.ltb_ge n 0)) by done.
  change ("" ++ ?s) with s.
  unfold Py.times. rewrite to_N_zeros.
  destruct n as [|p|p]; [done| |lia].
  unfold Py.hex_digits. by rewrite HexString.Raw.to_N_of_pos.
Qed.

Lemma fmt_0x_inj (n m : Z) :
  0 <= n -> 0 <= m -> Py.fmt_0x width n = Py.fmt_0x width m -> n = m.
Proof.
  intros Hn Hm Heq.
  apply (f_equal (fun s => HexString.Raw.to_N s 0)) in Heq.
  rewrite !fmt_0x_to_N in Heq by done. lia.
Qed.

End fmt_0x.

(** Two texts made of hexadecimal digits, each followed by the same
    character that is not one, can be told apart from what follows. *)
Lemma split_after_hex (sep : ascii) (a a' b b' : string) :
  HexString.ascii_to_digit sep = None ->
  all_hex a = true -> all_hex a' = true ->
  a ++ String sep b = a' ++ String sep b' -> a = a' ∧ b = b'.
Proof.
  intros Hsep. revert a'.
  induction a as [|c a IH]; intros [|c' a']; simpl.
  - by intros _ _ [= ->].
  - intros _ Hc' [= <- _]. by rewrite Hsep in Hc'.
  - intros Hc _ [= -> _]. by rewrite Hsep in Hc.
  - intros Hc Hc' [= -> Heq].
    destruct (HexString.ascii_to_digit c'); [|done].
    destruct (IH a' Hc Hc' Heq) as [-> ->]. done.
Qed.

Lemma startswith_slash_app (name rest rest' : string) (c : ascii) :
  Py.startswith_slash (name ++ String c rest)
  = Py.startswith_slash (name ++ String c rest').
Proof. by destruct name. Qed.

Lemma path_join_inj (dir b b' : string) :
  Py.startswith_slash b = Py.startswith_slash b' ->
  Py.path_join dir b = Py.path_join dir b' -> b = b'.
Proof.
  unfold Py.path_join. intros <-.
  destruct (Py.startswith_slash b); [done|].
  destruct (if decide (dir = "") then true else Py.endswith_slash dir).
  - apply append_inv_head.
  - intros H%append_inv_head. by injection H.
Qed.

(** X10. Within one process, two nodes whose bounds are not negative get
    the same file name only if they have the same bounds, so regions with
    different bounds never overwrite each other. *)
Theorem dump_name_identifies_the_range
    (self : VADDump.t) (name : string) (offset start end_ start' end' : Z) :
  0 <= start -> 0 <= end_ -> 0 <= start' -> 0 <= end' ->
  VADDump.dump_path self name offset start end_
  = VADDump.dump_path self name offset start' end' ->
  start = start' ∧ end_ = end'.
Proof.
  intros Hs He Hs' He' Hpath. unfold VADDump.dump_path in Hpath.
  apply path_join_inj in Hpath; [|apply startswith_slash_app].
  do 4 apply append_inv_head in Hpath.
  change (Py.fmt_0x 8 start
          ++ String "-" (Py.fmt_0x 8 end_ ++ String "." "dmp")
          = Py.fmt_0x 8 start'
            ++ String "-" (Py.fmt_0x 8 end' ++ String "." "dmp")) in Hpath.
  apply split_after_hex in Hpath as [Hstart Hrest];
    [|done|by apply fmt_0x_all_hex..].
  apply split_after_hex in Hrest as [Hend _];
    [|done|by apply fmt_0x_all_hex..].
  split; by eapply fmt_0x_inj.
Qed.

Lemma dump_name_identifies_the_range_witness :
  get_start node_A = 0x1000 ∧ get_end node_A = 0x1fff.
Proof.
  apply (dump_name_identifies_the_range dump_self "lsass.exe" 0x0a000000);
    by vm_compute.
Defined.

(** ** When a dump succeeds *)

Lemma for_each_ok_inv {A} (xs : list A) (body : A -> M unit) (w : World) :
  (for_each xs body w).1 = inr tt ->
  ∀ x, x ∈ xs -> ∃ w0, (body x w0).1 = inr tt.
Proof.
  revert w. induction xs as [|x xs IH]; intros w Hok y Hy.
  - by apply elem_of_nil in Hy.
  - cbn [for_each] in Hok. unfold bind in Hok.
    destruct (body x w) as [[e|[]] w1] eqn:Hbody; [done|].
    apply elem_of_cons in Hy as [->|Hy].
    + exists w. by rewrite Hbody.
    + by apply (IH w1).
Qed.

Section render_succeeds.
Import VADDump.
Variables (self : t) (os : OS).

Lemma elem_of_snapshot_regions (tasks : list Task) (kv : string * list byte) :
  kv ∈ snapshot_regions self tasks ↔ from_snapshot self tasks kv.
Proof.
  unfold from_snapshot. induction tasks as [|task tasks IH]; simpl.
  - split; [by intros ?%elem_of_nil|].
    by intros (? & ? & ? & ?%elem_of_nil & _).
  - rewrite elem_of_app, IH. split.
    + intros [Hkv|(t' & o & v & Ht' & Hrest)].
      * destruct (vtop (get_process_address_space task)
                    (task_obj_offset task)) as [offset|] eqn:Hoff;
          [|by apply elem_of_nil in Hkv].
        apply elem_of_regions in Hkv as (vad & Hvad & Hacc & ->).
        exists task, offset, vad. by repeat split; [left|..].
      * exists t', o, v. split; [by right | done].
    + intros (t' & o & v & [->|Ht']%elem_of_cons & Hoff & Hvad & Hacc & ->).
      * left. rewrite Hoff. apply elem_of_regions. by exists v.
      * right. by exists t', o, v.
Qed.

Lemma render_all_opened (tasks : list Task) (w : World) :
  (∀ kv, from_snapshot self tasks kv -> can_open os kv.1 = true) ->
  (render self os tasks w).1 = inr tt
  ∧ files (render self os tasks w).2
    = foldl store (files w) (snapshot_regions self tasks).
Proof.
  revert w. induction tasks as [|task tasks IH]; intros w Hopen; [done|].
  assert (∀ kv, from_snapshot self tasks kv -> can_open os kv.1 = true)
    as Hlater.
  { intros kv (t' & o & v & Ht' & Hrest). apply Hopen.
    exists t', o, v. split; [by right | done]. }
  assert ((render_task self os task w).1 = inr tt
          ∧ files (render_task self os task w).2
            = foldl store (files w)
                (match vtop (get_process_address_space task)
                         (task_obj_offset task) with
                 | Some offset =>
                     regions self (get_process_address_space task)
                       (ImageFileName task) offset (VadRoot_traverse task)
                 | None => []
                 end)) as [Htask_ok Htask_files].
  { unfold render_task, bind, write.
    destruct (vtop (get_process_address_space task) (task_obj_offset task))
      as [offset|] eqn:Hoff; cbn [fst snd outfd files]; [|done].
    match goal with
    | |- context [for_each _ _ ?w1] =>
        apply (for_each_dump_vad_ok self os _ _ _ _ w1)
    end.
    intros vad Hvad Hacc.
    apply (Hopen (region self (get_process_address_space task)
                    (ImageFileName task) offset vad)).
    exists task, offset, vad. by repeat split; [left|..]. }
  unfold render. cbn [for_each snapshot_regions]. unfold bind.
  destruct (render_task self os task w) as [[e|[]] w2]; [done|].
  cbn [fst snd] in *.
  destruct (IH w2 Hlater) as [Hr Hf]. unfold render in Hr, Hf.
  split; [done|]. by rewrite Hf, Htask_files, foldl_app.
Qed.

Lemma render_ok_all_opened (tasks : list Task) (w : World) :
  (render self os tasks w).1 = inr tt ->
  ∀ kv, from_snapshot self tasks kv -> can_open os kv.1 = true.
Proof.
  intros Hok kv (task & offset & vad & Htask & Hoff & Hvad & Hacc & ->).
  destruct (for_each_ok_inv _ _ _ Hok task Htask) as [w0 Htask_ok].
  unfold render_task, bind, write in Htask_ok. rewrite Hoff in Htask_ok.
  cbn [fst snd] in Htask_ok.
  destruct (for_each_ok_inv _ _ _ Htask_ok (Some vad) Hvad) as [w1 Hvad_ok].
  destruct (can_open os (region self (get_process_address_space task)
                           (ImageFileName task) offset vad).1) eqn:Hopen;
    [done|].
  by rewrite dump_vad_refused in Hvad_ok.
Qed.

End render_succeeds.

(** X5. A run over processes in which no node passes the type test behind
    a control block that resolves opens no file: [VADDump.render] ends
    without an exception and every file is as it was. *)
Theorem render_without_regions_is_quiet
    (self : VADDump.t) (os : OS) (tasks : list Task) (w : World) :
  (∀ kv, ¬ VADDump.from_snapshot self tasks kv) ->
  (VADDump.render self os tasks w).1 = inr tt
  ∧ files (VADDump.render self os tasks w).2 = files w.
Proof.
  intros Hnone.
  assert (snapshot_regions self tasks = []) as Hregions.
  { destruct (snapshot_regions self tasks) as [|kv kvs] eqn:Heq; [done|].
    destruct (Hnone kv). apply elem_of_snapshot_regions. rewrite Heq. left. }
  destruct (render_all_opened self os tasks w) as [Hok Hfiles].
  { intros kv Hkv. by destruct (Hnone kv). }
  split; [done|]. by rewrite Hfiles, Hregions.
Qed.

Lemma render_without_regions_is_quiet_witness :
  (VADDump.render dump_self (os_with_locked path_A) [quiet_task]
     empty_world).1 = inr tt
  ∧ files (VADDump.render dump_self (os_with_locked path_A) [quiet_task]
             empty_world).2 = ∅.
Proof.
  apply (render_without_regions_is_quiet dump_self (os_with_locked path_A)
           [quiet_task] empty_world).
  intros kv (task & offset & vad & Htask & _ & Hvad & Hacc & _).
  apply list_elem_of_singleton in Htask as ->. simpl in Hvad.
  apply elem_of_cons in Hvad as [Hvad|Hvad]; [discriminate|].
  apply list_elem_of_singleton in Hvad. injection Hvad as ->.
  discriminate.
Defined.

(** X12. When [VADDump.render] ends without an exception, the destination
    of every accepted node of every process whose control block resolves
    could be opened, and the directory holds the regions of these nodes,
    stored process by process in traversal order over what it held
    before. *)
Theorem render_success_means_all_stored
    (self : VADDump.t) (os : OS) (tasks : list Task) (w : World) :
  (VADDump.render self os tasks w).1 = inr tt ->
  (∀ kv, VADDump.from_snapshot self tasks kv -> can_open os kv.1 = true)
  ∧ files (VADDump.render self os tasks w).2
    = foldl VADDump.store (files w) (snapshot_regions self tasks)
  ∧ (∀ kv, kv ∈ snapshot_regions self tasks
           ↔ VADDump.from_snapshot self tasks kv).
Proof.
  intros Hok. split; [|split].
  - exact (render_ok_all_opened self os tasks w Hok).
  - apply render_all_opened. exact (render_ok_all_opened self os tasks w Hok).
  - intros kv. apply elem_of_snapshot_regions.
Qed.

Lemma render_success_means_all_stored_witness :
  files (VADDump.render dump_self (os_with_locked "") [lsass] empty_world).2
  = foldl VADDump.store ∅ (snapshot_regions dump_self [lsass]).
Proof.
  destruct (render_success_means_all_stored dump_self (os_with_locked "")
              [lsass] empty_world) as (_ & Hfiles & _).
  - reflexivity.
  - exact Hfiles.
Defined.
